(** * clipsai: parameter validation for the clip and transcribe-and-clip entry points

    A shallow embedding of
      - [clipsai/clip/clip_request_validator.py]            ([ClipInputValidator])
      - [clipsai/transcribe_clip/clip_request_validator.py] ([TranscribeAndClipRequestValidator])

    Python dictionaries are finite maps from field names to Python values.
    The caller's dictionary is the one mutable object the two classes touch,
    so every method is a computation over that dictionary as a store, which
    either returns a value or raises a Python exception. *)

From Stdlib Require Import ZArith String Ascii List Bool Lia.
From Stdlib Require Import SpecFloat.
From stdpp Require Import base option list gmap strings.

Open Scope string_scope.

(** ** Python values *)

(** The values a parameter mapping can hold.  [VFloat] carries an IEEE-754
    number (Python floats are binary64); [VStr] carries the text as its
    UTF-8 bytes, on which being a suffix means what it means on characters;
    [VOther] stands for any object of a type the validators never accept
    (lists, nested dicts, ...), known by the name of its class. *)
Inductive value : Type :=
| VNone
| VBool (b : bool)
| VInt (z : Z)
| VFloat (f : spec_float)
| VStr (s : string)
| VOther (type_name : string).

(** The classes named in the [correct_types] tables. *)
Inductive pytype : Type := Str | NoneType | Int | Float | Bool | Object (type_name : string).

Definition pytype_eqb (a b : pytype) : bool :=
  match a, b with
  | Str, Str | NoneType, NoneType | Int, Int | Float, Float | Bool, Bool => true
  | Object n, Object m => String.eqb n m
  | _, _ => false
  end.

(** [type(v)]. *)
Definition type_of (v : value) : pytype :=
  match v with
  | VNone => NoneType
  | VBool _ => Bool
  | VInt _ => Int
  | VFloat _ => Float
  | VStr _ => Str
  | VOther n => Object n
  end.

(** [issubclass(c, t)] on the classes above: [bool] is a subclass of [int]. *)
Definition issubclass (c t : pytype) : bool :=
  pytype_eqb c t || (pytype_eqb c Bool && pytype_eqb t Int).

(** [isinstance(v, types)] where [types] is a class or a tuple of classes. *)
Definition isinstance (v : value) (types : list pytype) : bool :=
  existsb (issubclass (type_of v)) types.

Definition type_name (t : pytype) : string :=
  match t with
  | Str => "str" | NoneType => "NoneType" | Int => "int"
  | Float => "float" | Bool => "bool" | Object n => n
  end.

(** A parameter mapping, and the [correct_types] table of a validator.  The
    table is a dict literal, kept as the ordered list of its items. *)
Abbreviation dict := (gmap string value).
Definition type_spec : Type := list (string * list pytype).

(** ** Strings *)

(** [s.endswith(suffix)]: the last [len(suffix)] characters of [s] are
    [suffix], compared character by character. *)
Definition endswith (s suffix : string) : bool :=
  (String.length suffix <=? String.length s)%nat
  && String.eqb (substring (String.length s - String.length suffix)
                           (String.length suffix) s) suffix.

(** [s.endswith((suffix1, suffix2, ...))]. *)
Definition endswith_any (s : string) (suffixes : list string) : bool :=
  existsb (endswith s) suffixes.

(** ** Numbers, for the ordering of clip durations *)

(** The exact value of a Python number: [m * 2^e], an infinity, or NaN.
    Python compares an [int] with a [float] exactly, not after rounding. *)
Inductive number : Type :=
| Finite (m e : Z)
| Infinite (negative : bool)
| NotANumber.

Definition number_of_float (f : spec_float) : number :=
  match f with
  | S754_zero _ => Finite 0 0
  | S754_infinity s => Infinite s
  | S754_nan => NotANumber
  | S754_finite s m e => Finite (if s then Z.neg m else Z.pos m) e
  end.

Definition number_of (v : value) : option number :=
  match v with
  | VInt z => Some (Finite z 0)
  | VBool b => Some (Finite (Z.b2z b) 0)
  | VFloat f => Some (number_of_float f)
  | _ => None
  end.

Definition number_ltb (a b : number) : bool :=
  match a, b with
  | NotANumber, _ | _, NotANumber => false
  | Infinite sa, Infinite sb => sa && negb sb
  | Infinite sa, Finite _ _ => sa
  | Finite _ _, Infinite sb => negb sb
  | Finite m1 e1, Finite m2 e2 =>
      let e := Z.min e1 e2 in
      (m1 * 2 ^ (e1 - e) <? m2 * 2 ^ (e2 - e))%Z
  end.

(** [a > b] on two numbers ([False] on anything else, which the callers
    below rule out by a type check). *)
Definition py_gt (a b : value) : bool :=
  match number_of a, number_of b with
  | Some x, Some y => number_ltb y x
  | _, _ => false
  end.

(** ** Computations over the caller's dictionary *)

Inductive exn : Type :=
| KeyError (key : string)
| AttributeError (attribute : string).

Inductive outcome (A : Type) : Type :=
| Returns (a : A)
| Raises (e : exn).
Arguments Returns {A} a.
Arguments Raises {A} e.

(** A method body: from the dictionary on entry to its outcome and the
    dictionary on exit. *)
Definition Py (A : Type) : Type := dict → outcome A * dict.

Definition ret {A} (a : A) : Py A := λ d, (Returns a, d).
Definition raise {A} (e : exn) : Py A := λ d, (Raises e, d).
Definition bind {A B} (m : Py A) (k : A → Py B) : Py B :=
  λ d, match m d with
       | (Returns a, d') => k a d'
       | (Raises e, d') => (Raises e, d')
       end.

Notation "'let*' x := m 'in' k" := (bind m (λ x, k))
  (at level 10, x name, m at level 100, k at level 200, only parsing).
Notation "m ;;; k" := (bind m (λ _, k))
  (at level 100, k at level 200, right associativity, only parsing).

(** [data[key]]. *)
Definition getitem (key : string) : Py value :=
  λ d, match d !! key with
       | Some v => (Returns v, d)
       | None => (Raises (KeyError key), d)
       end.

(** [key in data]. *)
Definition contains (key : string) : Py bool :=
  λ d, (Returns (bool_decide (is_Some (d !! key))), d).

(** [data[key] = v]. *)
Definition setitem (key : string) (v : value) : Py unit :=
  λ d, (Returns tt, <[key := v]> d).

(** The dictionary itself (the object a method returns with [return data]). *)
Definition this : Py dict := λ d, (Returns d, d).

(** A call of a function that only reads the dictionary. *)
Definition call {A} (f : dict → A) : Py A := λ d, (Returns (f d), d).

(** [for x in xs: body(x)]. *)
Fixpoint for_each {A} (xs : list A) (body : A → Py unit) : Py unit :=
  match xs with
  | [] => ret tt
  | x :: xs' => body x ;;; for_each xs' body
  end.

(** What a method returned, and the dictionary it left behind. *)
Definition result {A} (m : Py A) (d : dict) : outcome A := fst (m d).
Definition final {A} (m : Py A) (d : dict) : dict := snd (m d).

(** [table[key]] on a dict literal local to a method. *)
Fixpoint table_lookup {A} (table : list (string * A)) (key : string) : option A :=
  match table with
  | [] => None
  | (k, a) :: rest => if String.eqb k key then Some a else table_lookup rest key
  end.

Definition table_getitem {A} (table : list (string * A)) (key : string) : Py A :=
  match table_lookup table key with
  | Some a => ret a
  | None => raise (KeyError key)
  end.

(** [table.keys()]. *)
Definition keys {A} (table : list (string * A)) : list string := map fst table.

(** ** [ClipInputValidator] *)

Module ClipInputValidator.
Section Methods.

(** The collaborators, which live outside the two files:
    the method inherited from [InputValidator], [utils.pytorch]'s device
    check, and [check_valid_config] of the [TextTileClipFinderConfigManager]
    imported from [clip.texttile_config_manager].  They are functions of
    what they are given: the device check is handed a string and the manager
    a dictionary built for it, and the inherited method, the only one handed
    the caller's mapping, is a check that reads it. *)
Variable check_input_data_existence_and_types : dict → type_spec → option string.
Variable check_valid_torch_device : value → option string.
Variable texttile_check_valid_config : dict → option string.

Definition correct_types : type_spec :=
  [ ("mediaFilePath", [Str]);
    ("computeDevice", [Str; NoneType]);
    ("cutoffPolicy", [Str]);
    ("embeddingAggregationPoolMethod", [Str]);
    ("minClipTime", [Float; Int]);
    ("maxClipTime", [Float; Int]);
    ("smoothingWidth", [Int]);
    ("windowComparePoolMethod", [Str]) ].

(** The dict literal [texttile_config = {...}]: its six subscripts are
    evaluated in the order they are written. *)
Definition texttile_config : Py dict :=
  let* cutoff_policy := getitem "cutoffPolicy" in
  let* embedding_aggregation_pool_method := getitem "embeddingAggregationPoolMethod" in
  let* max_clip_duration_secs := getitem "maxClipTime" in
  let* min_clip_duration_secs := getitem "minClipTime" in
  let* smoothing_width := getitem "smoothingWidth" in
  let* window_compare_pool_method := getitem "windowComparePoolMethod" in
  ret (<["cutoff_policy" := cutoff_policy]>
       (<["embedding_aggregation_pool_method" := embedding_aggregation_pool_method]>
       (<["max_clip_duration_secs" := max_clip_duration_secs]>
       (<["min_clip_duration_secs" := min_clip_duration_secs]>
       (<["smoothing_width" := smoothing_width]>
       (<["window_compare_pool_method" := window_compare_pool_method]> ∅)))))).

Definition check_valid_input_data : Py (option string) :=
  (* existence and type check *)
  let* error := call (λ input_data,
    check_input_data_existence_and_types input_data correct_types) in
  match error with
  | Some e => ret (Some e)
  | None =>
  (* file extension check *)
  let* media_file_path := getitem "mediaFilePath" in
  match media_file_path with
  | VStr path =>
    if negb (endswith_any path [".mp3"; ".mp4"]) then
      ret (Some ("mediaFilePath must be of type mp3 or mp4. Received: " ++ path))
    else
    (* computeDevice *)
    let* device := getitem "computeDevice" in
    let* error :=
      match device with
      | VNone => ret None
      | _ => let* device := getitem "computeDevice" in
             ret (check_valid_torch_device device)
      end in
    match error with
    | Some e => ret (Some e)
    | None =>
    (* TextTiler configuration *)
    let* config := texttile_config in
    match texttile_check_valid_config config with
    | Some e => ret (Some e)
    | None => ret None
    end
    end
  | _ => raise (AttributeError "endswith")
  end
  end.

Definition optional_fields_default_values : list (string * value) :=
  [ ("computeDevice", VNone);
    ("cutoffPolicy", VStr "high");
    ("embeddingAggregationPoolMethod", VStr "max");
    ("minClipTime", VInt 15);
    ("maxClipTime", VInt 900);
    ("smoothingWidth", VInt 3);
    ("windowComparePoolMethod", VStr "mean") ].

Definition impute_input_data_defaults : Py dict :=
  for_each (keys optional_fields_default_values) (λ key,
    let* present := contains key in
    if negb present then
      let* default := table_getitem optional_fields_default_values key in
      setitem key default
    else ret tt) ;;;
  this.

End Methods.
End ClipInputValidator.

(** ** [TranscribeAndClipRequestValidator] *)

Module TranscribeAndClipRequestValidator.
Section Methods.

(** The collaborators: the method inherited from [RequestValidator],
    [utils.pytorch]'s device check, and [check_valid_config] of the
    [WhisperXTranscriberConfigManager] and of the
    [TextTileClipFinderConfigManager] imported from
    [ml.clipfind.texttile_config_manager]. *)
Variable check_request_data_existence_and_types : dict → type_spec → option string.
Variable check_valid_torch_device : value → option string.
Variable whisperx_check_valid_config : dict → option string.
Variable texttile_check_valid_config : dict → option string.

(** ["{}".format(v)] is [str(v)]: the string itself for a [str], and whatever
    [__str__] of its class gives for any other object. *)
Variable object_str : value → string.

Definition format (v : value) : string :=
  match v with
  | VStr s => s
  | _ => object_str v
  end.

Definition correct_types : type_spec :=
  [ ("mediaFilePath", [Str]);
    ("computeDevice", [Str; NoneType]);
    ("precision", [Str; NoneType]);
    ("languageCode", [Str]);
    ("whisperModelSize", [Str; NoneType]);
    ("cutoffPolicy", [Str]);
    ("embeddingAggregationPoolMethod", [Str]);
    ("minClipTime", [Float; Int]);
    ("maxClipTime", [Float; Int]);
    ("smoothingWidth", [Int]);
    ("windowComparePoolMethod", [Str]) ].

Definition whisperx_config : Py dict :=
  let* language := getitem "languageCode" in
  let* model_size := getitem "whisperModelSize" in
  let* precision := getitem "precision" in
  ret (<["language" := language]>
       (<["model_size" := model_size]>
       (<["precision" := precision]> ∅))).

Definition texttile_config : Py dict :=
  let* cutoff_policy := getitem "cutoffPolicy" in
  let* embedding_aggregation_pool_method := getitem "embeddingAggregationPoolMethod" in
  let* max_clip_duration_secs := getitem "maxClipTime" in
  let* min_clip_duration_secs := getitem "minClipTime" in
  let* smoothing_width := getitem "smoothingWidth" in
  let* window_compare_pool_method := getitem "windowComparePoolMethod" in
  ret (<["cutoff_policy" := cutoff_policy]>
       (<["embedding_aggregation_pool_method" := embedding_aggregation_pool_method]>
       (<["max_clip_duration_secs" := max_clip_duration_secs]>
       (<["min_clip_duration_secs" := min_clip_duration_secs]>
       (<["smoothing_width" := smoothing_width]>
       (<["window_compare_pool_method" := window_compare_pool_method]> ∅)))))).

Definition check_valid_request_data : Py (option string) :=
  (* existence and type check *)
  let* error := call (λ request_data,
    check_request_data_existence_and_types request_data correct_types) in
  match error with
  | Some e => ret (Some e)
  | None =>
  (* file extension check *)
  let* media_file_path := getitem "mediaFilePath" in
  match media_file_path with
  | VStr path =>
    if negb (endswith_any path [".mp3"; ".mp4"]) then
      let* received := getitem "mediaFilePath" in
      ret (Some ("mediaFilePath must be of type mp3 or mp4. Received: "
                 ++ format received))
    else
    (* computeDevice *)
    let* device := getitem "computeDevice" in
    let* error :=
      match device with
      | VNone => ret None
      | _ => let* device := getitem "computeDevice" in
             ret (check_valid_torch_device device)
      end in
    match error with
    | Some e => ret (Some e)
    | None =>
    (* WhisperXTranscriber configuration *)
    let* config := whisperx_config in
    match whisperx_check_valid_config config with
    | Some e => ret (Some e)
    | None =>
    (* TextTiler configuration *)
    let* config := texttile_config in
    match texttile_check_valid_config config with
    | Some e => ret (Some e)
    | None => ret None
    end
    end
    end
  | _ => raise (AttributeError "endswith")
  end
  end.

Definition optional_fields_default_values : list (string * value) :=
  [ ("computeDevice", VNone);
    ("precision", VNone);
    ("languageCode", VStr "en");
    ("whisperModelSize", VNone);
    ("cutoffPolicy", VStr "high");
    ("embeddingAggregationPoolMethod", VStr "max");
    ("minClipTime", VInt 15);
    ("maxClipTime", VInt 900);
    ("smoothingWidth", VInt 3);
    ("windowComparePoolMethod", VStr "mean") ].

Definition impute_request_data_defaults : Py dict :=
  for_each (keys optional_fields_default_values) (λ key,
    let* present := contains key in
    if negb present then
      let* default := table_getitem optional_fields_default_values key in
      setitem key default
    else ret tt) ;;;
  this.

End Methods.
End TranscribeAndClipRequestValidator.

(** ** The collaborators, as the design document describes them *)

Definition type_names (types : list pytype) : string :=
  String.concat ", " (map type_name types).

(** Modelled from the spec: [check_input_data_existence_and_types] and
    [check_request_data_existence_and_types], inherited from the base classes
    [InputValidator] and [RequestValidator], whose files are not among the
    sources.  "For every field in the Type Specification, fail with
    missing field <name> if absent (unless its accepted type-set includes
    absent/null and a default will be applied at a later stage - optional
    fields still must type-check if present), or field <name> has invalid
    type, expected one of <types>, got <actual> if present with a disallowed
    type."  Both conditions of the exception are kept: [default_pending]
    tells for which fields a default will still be applied after the
    check. *)
Fixpoint check_existence_and_types_before (default_pending : string → bool)
    (data : dict) (correct_types : type_spec) : option string :=
  match correct_types with
  | [] => None
  | (field, types) :: rest =>
      match data !! field with
      | None =>
          if existsb (pytype_eqb NoneType) types && default_pending field
          then check_existence_and_types_before default_pending data rest
          else Some ("missing field " ++ field)
      | Some v =>
          if isinstance v types
          then check_existence_and_types_before default_pending data rest
          else Some ("field " ++ field ++ " has invalid type, expected one of "
                     ++ type_names types ++ ", got " ++ type_name (type_of v))
      end
  end.

(** Modelled from the spec: the check as the two validators run it.  No
    default is applied after [check_valid_input_data] or
    [check_valid_request_data] (imputation is another method, which they do
    not call), so no default is pending for any field and every listed field
    has to be present, None being a value like any other. *)
Definition check_existence_and_types : dict → type_spec → option string :=
  check_existence_and_types_before (λ _, false).

(** A stand-in for an inherited check that would count on a later default
    for every field, and so lets an absent field through whenever None is
    among its accepted types.  It is used to show what the validators' own
    subscripts do behind a check that passes such a mapping. *)
Definition check_existence_and_types_lenient : dict → type_spec → option string :=
  check_existence_and_types_before (λ _, true).

(** Modelled from the spec: the presence and type validation of a Config
    Manager ("validates presence/type of every field the specific subsystem
    requires"): every field has to be present, None being a value like any
    other. *)
Fixpoint check_existence_and_types_strict (data : dict) (correct_types : type_spec)
  : option string :=
  match correct_types with
  | [] => None
  | (field, types) :: rest =>
      match data !! field with
      | None => Some ("missing field " ++ field)
      | Some v =>
          if isinstance v types
          then check_existence_and_types_strict data rest
          else Some ("field " ++ field ++ " has invalid type, expected one of "
                     ++ type_names types ++ ", got " ++ type_name (type_of v))
      end
  end.

Definition is_digit (c : ascii) : bool :=
  (48 <=? nat_of_ascii c)%nat && (nat_of_ascii c <=? 57)%nat.

Fixpoint all_digits (s : string) : bool :=
  match s with
  | EmptyString => true
  | String c rest => is_digit c && all_digits rest
  end.

(** [s.split(":", 1)]: the text before the first colon and, when there is a
    colon, the text after it. *)
Fixpoint split_colon (s : string) : string * option string :=
  match s with
  | EmptyString => (EmptyString, None)
  | String c rest =>
      if Ascii.eqb c ":"%char then (EmptyString, Some rest)
      else let '(name, index) := split_colon rest in (String c name, index)
  end.

(** Modelled from the spec: [check_valid_torch_device] of [utils/pytorch.py],
    which is not among the sources.  It accepts ["cpu"] and
    ["<accelerator>[:<index>]"] with a non-negative integer index, and answers
    anything else with a message naming the offending value.  The accelerator
    names it knows are not listed by the design document; they are the
    parameter [accelerators]. *)
Definition torch_device_check (accelerators : list string) (device : value)
  : option string :=
  match device with
  | VStr s =>
      let '(name, index) := split_colon s in
      let known := existsb (String.eqb name) accelerators in
      let indexed :=
        match index with
        | None => true
        | Some i => negb (String.eqb i "") && all_digits i
        end in
      if String.eqb s "cpu" || (known && indexed) then None
      else Some ("Invalid compute device: " ++ s)
  | _ => Some "Invalid compute device"
  end.

(** The sub-configuration the text-tiling manager expects, field by field. *)
Definition texttile_config_types : type_spec :=
  [ ("cutoff_policy", [Str]);
    ("embedding_aggregation_pool_method", [Str]);
    ("max_clip_duration_secs", [Float; Int]);
    ("min_clip_duration_secs", [Float; Int]);
    ("smoothing_width", [Int]);
    ("window_compare_pool_method", [Str]) ].

Definition clip_time_error : string :=
  "min_clip_duration_secs must not be greater than max_clip_duration_secs".

Definition member_of (accepted : list string) (v : value) : bool :=
  match v with
  | VStr s => existsb (String.eqb s) accepted
  | _ => false
  end.

Definition is_negative (v : value) : bool :=
  match number_of v with
  | Some n => number_ltb n (Finite 0 0)
  | None => false
  end.

(** Modelled from the spec: [check_valid_config] of
    [TextTileClipFinderConfigManager], whose file is not among the sources.
    It validates presence and type of every field, then the ordering of the
    clip durations (minimum at most maximum), then that the smoothing width
    is not negative, then that the enumerated strings belong to their
    accepted sets, and returns the first violated constraint.  The accepted
    sets are not listed by the design document; they are parameters. *)
Definition texttile_config_check (cutoff_policies pool_methods : list string)
    (config : dict) : option string :=
  match check_existence_and_types_strict config texttile_config_types with
  | Some e => Some e
  | None =>
    match config !! "min_clip_duration_secs", config !! "max_clip_duration_secs",
          config !! "smoothing_width", config !! "cutoff_policy",
          config !! "embedding_aggregation_pool_method",
          config !! "window_compare_pool_method" with
    | Some lo, Some hi, Some width, Some policy, Some aggregation, Some compare =>
        if py_gt lo hi then Some clip_time_error
        else if is_negative width then Some "smoothing_width must not be negative"
        else if negb (member_of cutoff_policies policy)
          then Some "cutoff_policy is not an accepted value"
        else if negb (member_of pool_methods aggregation)
          then Some "embedding_aggregation_pool_method is not an accepted value"
        else if negb (member_of pool_methods compare)
          then Some "window_compare_pool_method is not an accepted value"
        else None
    | _, _, _, _, _, _ => Some "missing field"
    end
  end.

Definition whisperx_config_types : type_spec :=
  [ ("language", [Str]);
    ("model_size", [Str; NoneType]);
    ("precision", [Str; NoneType]) ].

(** Modelled from the spec: [check_valid_config] of
    [WhisperXTranscriberConfigManager], whose file is not among the sources:
    presence and type of the language code, model size and precision, and
    membership of a given precision in its accepted set (a parameter). *)
Definition whisperx_config_check (precisions : list string) (config : dict)
  : option string :=
  match check_existence_and_types_strict config whisperx_config_types with
  | Some e => Some e
  | None =>
    match config !! "precision" with
    | Some VNone => None
    | Some v => if member_of precisions v then None
                else Some "precision is not an accepted value"
    | None => Some "missing field precision"
    end
  end.

(** ** The validation steps of the design document *)

(** Steps run in the order given; the first error is the answer and nothing
    after it runs; [None] is the answer when every step passes. *)
Fixpoint first_error (checks : list (Py (option string))) : Py (option string) :=
  match checks with
  | [] => ret None
  | check :: later =>
      let* error := check in
      match error with
      | Some e => ret (Some e)
      | None => first_error later
      end
  end.

(** Step 1: existence and type check over the whole type specification. *)
Definition existence_step (existence_and_types : dict → type_spec → option string)
    (correct_types : type_spec) : Py (option string) :=
  call (λ data, existence_and_types data correct_types).

Definition extension_error (path : string) : string :=
  "mediaFilePath must be of type mp3 or mp4. Received: " ++ path.

(** Step 2: the media file path ends in [.mp3] or [.mp4]. *)
Definition extension_step : Py (option string) :=
  let* media_file_path := getitem "mediaFilePath" in
  match media_file_path with
  | VStr path =>
      ret (if endswith_any path [".mp3"; ".mp4"] then None
           else Some (extension_error path))
  | _ => raise (AttributeError "endswith")
  end.

(** Step 3: the device check, run only on a compute device that is not
    [None]. *)
Definition device_step (check_valid_torch_device : value → option string)
  : Py (option string) :=
  let* device := getitem "computeDevice" in
  match device with
  | VNone => ret None
  | _ => ret (check_valid_torch_device device)
  end.

(** Steps 4 and 5: build a sub-configuration and hand it to its manager. *)
Definition config_step (config : Py dict) (check_valid_config : dict → option string)
  : Py (option string) :=
  let* sub_config := config in
  ret (check_valid_config sub_config).

Definition input_steps (existence_and_types : dict → type_spec → option string)
    (check_valid_torch_device : value → option string)
    (texttile : dict → option string) : list (Py (option string)) :=
  [ existence_step existence_and_types ClipInputValidator.correct_types;
    extension_step;
    device_step check_valid_torch_device;
    config_step ClipInputValidator.texttile_config texttile ].

Definition request_steps (existence_and_types : dict → type_spec → option string)
    (check_valid_torch_device : value → option string)
    (whisperx texttile : dict → option string) : list (Py (option string)) :=
  [ existence_step existence_and_types TranscribeAndClipRequestValidator.correct_types;
    extension_step;
    device_step check_valid_torch_device;
    config_step TranscribeAndClipRequestValidator.whisperx_config whisperx;
    config_step TranscribeAndClipRequestValidator.texttile_config texttile ].

(** A step passes on [d] when it returns [None] there. *)
Definition passes (step : Py (option string)) (d : dict) : Prop :=
  result step d = Returns None.

(** The outcome [r] of running [steps] on [d] in order, stopping at the first
    step that does not pass: [None] when all of them pass, and otherwise what
    the first step that does not pass answered, whatever the steps after it
    would have said. *)
Definition first_failure (steps : list (Py (option string))) (d : dict)
    (r : outcome (option string)) : Prop :=
  match r with
  | Returns None => Forall (λ step, passes step d) steps
  | _ => ∃ before step after,
      steps = (before ++ step :: after)%list ∧
      Forall (λ step, passes step d) before ∧
      result step d = r
  end.

(** What an existence-and-type check that passes guarantees of each field of
    the type specification: a value of an accepted type, or no value at all
    when [None] is among the accepted types. *)
Definition accepted (types : list pytype) (entry : option value) : Prop :=
  match entry with
  | Some v => isinstance v types = true
  | None => existsb (pytype_eqb NoneType) types = true
  end.

Definition sound_existence_check
    (existence_and_types : dict → type_spec → option string) : Prop :=
  ∀ d correct_types, existence_and_types d correct_types = None →
    ∀ field types, (field, types) ∈ correct_types → accepted types (d !! field).

(** The default table as a mapping, and imputation as the design document
    words it: each default is inserted unless its field is present. *)
Definition impute_spec (defaults : list (string * value)) (d : dict) : dict :=
  d ∪ list_to_map defaults.

(** The loop shared by the two imputation methods, over a default table. *)
Definition impute_with (defaults : list (string * value)) : Py dict :=
  for_each (keys defaults) (λ key,
    let* present := contains key in
    if negb present then
      let* default := table_getitem defaults key in
      setitem key default
    else ret tt) ;;;
  this.

(** The mapping of the design document's first scenario, which is valid for
    the input validator, and its completion for the request validator. *)
Definition scenario_input : dict :=
  <["mediaFilePath" := VStr "a.mp3"]>
  (<["cutoffPolicy" := VStr "high"]>
  (<["embeddingAggregationPoolMethod" := VStr "max"]>
  (<["minClipTime" := VInt 15]>
  (<["maxClipTime" := VInt 900]>
  (<["smoothingWidth" := VInt 3]>
  (<["windowComparePoolMethod" := VStr "mean"]>
  (<["computeDevice" := VNone]> ∅))))))).

Definition scenario_request : dict :=
  <["precision" := VNone]>
  (<["languageCode" := VStr "en"]>
  (<["whisperModelSize" := VNone]> scenario_input)).

(** The collaborators of the design document with the accepted values it
    names: the accelerator of its device examples, and the cutoff policy and
    pooling methods of its default table. *)
Definition device_check : value → option string := torch_device_check ["cuda"].
Definition texttile_check : dict → option string :=
  texttile_config_check ["high"] ["max"; "mean"].
Definition whisperx_check : dict → option string := whisperx_config_check [].

(** [str] of an object that is not a string, for the examples. *)
Definition type_name_str (v : value) : string := type_name (type_of v).

(** A sub-configuration of the text-tiling manager that is complete and well
    typed. *)
Definition texttile_config_well_formed (config : dict) : Prop :=
  check_existence_and_types_strict config texttile_config_types = None.

(** The clause of the Config Manager's contract on clip durations: "numeric
    fields must satisfy ordering invariants (e.g., minimum duration ≤ maximum
    duration)", violated constraints being answered with a message;
    [range_violation] tells which messages report that violation.  The
    clause is about sub-configurations that are complete and well typed, the
    ones a validated mapping gives. *)
Definition enforces_clip_time_order (check_valid_config : dict → option string)
    (range_violation : string → Prop) : Prop :=
  ∀ config lo hi,
    texttile_config_well_formed config →
    config !! "min_clip_duration_secs" = Some lo →
    config !! "max_clip_duration_secs" = Some hi →
    py_gt lo hi = true →
    ∃ e, check_valid_config config = Some e ∧ range_violation e.

(** A path with one of the accepted extensions as its exact suffix. *)
Definition has_media_extension (path : string) : Prop :=
  ∃ stem, path = stem ++ ".mp3" ∨ path = stem ++ ".mp4".

(** The renaming of outer fields into the keys of a sub-configuration:
    [config] has exactly the inner keys, each bound to what its outer field
    is bound to in [d]. *)
Definition texttile_fields : list (string * string) :=
  [ ("cutoff_policy", "cutoffPolicy");
    ("embedding_aggregation_pool_method", "embeddingAggregationPoolMethod");
    ("max_clip_duration_secs", "maxClipTime");
    ("min_clip_duration_secs", "minClipTime");
    ("smoothing_width", "smoothingWidth");
    ("window_compare_pool_method", "windowComparePoolMethod") ].

Definition whisperx_fields : list (string * string) :=
  [ ("language", "languageCode");
    ("model_size", "whisperModelSize");
    ("precision", "precision") ].

Definition renames (fields : list (string * string)) (d config : dict) : Prop :=
  dom config = list_to_set (map fst fields)
  ∧ Forall (λ field, is_Some (config !! field.1) ∧ config !! field.1 = d !! field.2)
           fields.

(** A mapping in which every field of a type specification is bound to a
    value of an accepted type. *)
Definition satisfies (correct_types : type_spec) (d : dict) : Prop :=
  ∀ field types, (field, types) ∈ correct_types →
    ∃ v, d !! field = Some v ∧ isinstance v types = true.

(** An existence-and-type check that looks at nothing but the fields of the
    type specification it is given. *)
Definition reads_only_listed_fields
    (existence_and_types : dict → type_spec → option string) : Prop :=
  ∀ d1 d2 correct_types,
    (∀ field, field ∈ keys correct_types → d1 !! field = d2 !! field) →
    existence_and_types d1 correct_types = existence_and_types d2 correct_types.

(** An existence-and-type check that passes on a part of every type
    specification it passes on. *)
Definition monotone_existence_check
    (existence_and_types : dict → type_spec → option string) : Prop :=
  ∀ d smaller larger,
    (∀ item, item ∈ smaller → item ∈ larger) →
    existence_and_types d larger = None → existence_and_types d smaller = None.

(** The number of characters of a text kept as its UTF-8 bytes: every
    character is one byte that is not a continuation byte (10xxxxxx),
    followed by its continuation bytes. *)
Definition is_continuation_byte (c : ascii) : bool :=
  (128 <=? nat_of_ascii c)%nat && (nat_of_ascii c <? 192)%nat.

Fixpoint characters (s : string) : nat :=
  match s with
  | EmptyString => 0
  | String c rest =>
      if is_continuation_byte c then characters rest else S (characters rest)
  end.

(** A method that leaves the caller's dictionary as it found it. *)
Definition read_only {A} (m : Py A) : Prop := ∀ d, final m d = d.

(** ** Basic facts *)

Lemma bind_getitem_Some {B} key v (k : value → Py B) d :
  d !! key = Some v → bind (getitem key) k d = k v d.
Proof. intros H. unfold bind, getitem. by rewrite H. Qed.

Lemma bind_getitem_None {B} key (k : value → Py B) d :
  d !! key = None → bind (getitem key) k d = (Raises (KeyError key), d).
Proof. intros H. unfold bind, getitem. by rewrite H. Qed.

Lemma read_only_ret {A} (a : A) : read_only (ret a).
Proof. by intros d. Qed.

Lemma read_only_raise {A} e : read_only (@raise A e).
Proof. by intros d. Qed.

Lemma read_only_call {A} (f : dict → A) : read_only (call f).
Proof. by intros d. Qed.

Lemma read_only_getitem key : read_only (getitem key).
Proof. intros d. unfold final, getitem. by destruct (d !! key). Qed.

Lemma read_only_bind {A B} (m : Py A) (k : A → Py B) :
  read_only m → (∀ a, read_only (k a)) → read_only (bind m k).
Proof.
  intros Hm Hk d. unfold final, bind.
  specialize (Hm d). unfold final in Hm.
  destruct (m d) as [[a|e] d']; simpl in *; subst d'; [apply Hk | done].
Qed.

Lemma read_only_first_error checks :
  Forall read_only checks → read_only (first_error checks).
Proof.
  induction 1 as [|c cs Hc _ IH]; simpl.
  - apply read_only_ret.
  - apply read_only_bind; [done|]. intros [e|]; [apply read_only_ret | done].
Qed.

(** *** Suffixes *)

Lemma substring_all (s : string) : substring 0 (String.length s) s = s.
Proof. induction s as [|c s IH]; simpl; [done | by rewrite IH]. Qed.

Lemma substring_skip (p s : string) n :
  substring (String.length p) n (p ++ s) = substring 0 n s.
Proof. induction p as [|c p IH]; simpl; [done | apply IH]. Qed.

Lemma length_append (p s : string) :
  String.length (p ++ s) = (String.length p + String.length s)%nat.
Proof. induction p as [|c p IH]; simpl; [done | by rewrite IH]. Qed.

(** [endswith] is the suffix relation: exact and case-sensitive. *)
Lemma endswith_suffix (s suffix : string) :
  endswith s suffix = true ↔ ∃ p, s = p ++ suffix.
Proof.
  unfold endswith. rewrite andb_true_iff, Nat.leb_le, String.eqb_eq. split.
  - intros [Hlen Hsub]. induction s as [|c s IH].
    + simpl in Hlen. destruct suffix; simpl in *; [by exists "" | lia].
    + destruct (decide (String.length suffix = String.length (String c s))) as [Heq|Hne].
      * rewrite Heq, Nat.sub_diag, substring_all in Hsub. by exists "".
      * simpl in Hlen, Hne.
        replace (String.length (String c s) - String.length suffix)%nat
          with (S (String.length s - String.length suffix)) in Hsub by (simpl; lia).
        simpl in Hsub. destruct IH as [p ->]; [lia | done |]. by exists (String c p).
  - intros [p ->]. rewrite length_append. split; [lia|].
    replace (String.length p + String.length suffix - String.length suffix)%nat
      with (String.length p) by lia.
    by rewrite substring_skip, substring_all.
Qed.

Lemma endswith_any_suffix (s : string) (suffixes : list string) :
  endswith_any s suffixes = true ↔ ∃ suffix p, suffix ∈ suffixes ∧ s = p ++ suffix.
Proof.
  unfold endswith_any. rewrite existsb_exists. split.
  - intros (x & Hin & H). apply endswith_suffix in H as [p ->].
    exists x, p. by rewrite list_elem_of_In.
  - intros (x & p & Hin & ->). exists x. split; [by apply list_elem_of_In|].
    apply endswith_suffix. by exists p.
Qed.

Example endswith_mp3 : endswith_any "talk.mp3" [".mp3"; ".mp4"] = true.
Proof. reflexivity. Qed.

Example endswith_upper_case : endswith_any "talk.MP3" [".mp3"; ".mp4"] = false.
Proof. reflexivity. Qed.

Example endswith_short : endswith_any "mp3" [".mp3"; ".mp4"] = false.
Proof. reflexivity. Qed.

(** *** The existence-and-type checks of the design document are sound *)

Lemma check_existence_and_types_before_sound default_pending :
  sound_existence_check (check_existence_and_types_before default_pending).
Proof.
  intros d spec. induction spec as [|[k ts] rest IH]; simpl; intros Hnone field types Hin.
  - by apply elem_of_nil in Hin.
  - apply elem_of_cons in Hin as [Heq|Hin].
    + injection Heq as -> ->. unfold accepted.
      destruct (d !! k) as [v|].
      * by destruct (isinstance v ts).
      * by destruct (existsb (pytype_eqb NoneType) ts).
    + apply IH; [|done].
      destruct (d !! k) as [v|].
      * by destruct (isinstance v ts).
      * by destruct (existsb (pytype_eqb NoneType) ts && default_pending k).
Qed.

Lemma check_existence_and_types_sound :
  sound_existence_check check_existence_and_types.
Proof. apply check_existence_and_types_before_sound. Qed.

Lemma check_existence_and_types_lenient_sound :
  sound_existence_check check_existence_and_types_lenient.
Proof. apply check_existence_and_types_before_sound. Qed.

(** The check the validators run passes only on a mapping that has every
    listed field, with an accepted type. *)
Lemma check_existence_and_types_present d spec :
  check_existence_and_types d spec = None → satisfies spec d.
Proof.
  unfold check_existence_and_types.
  induction spec as [|[k ts] rest IH]; simpl; intros Hnone field types Hin.
  - by apply elem_of_nil in Hin.
  - destruct (d !! k) as [v|] eqn:Hk; [|by rewrite andb_false_r in Hnone].
    destruct (isinstance v ts) eqn:Hty; [|done].
    apply elem_of_cons in Hin as [Heq|Hin]; [|by apply IH].
    injection Heq as -> ->. eauto.
Qed.

Lemma check_existence_and_types_strict_present d spec :
  check_existence_and_types_strict d spec = None →
  ∀ field types, (field, types) ∈ spec →
    ∃ v, d !! field = Some v ∧ isinstance v types = true.
Proof.
  induction spec as [|[k ts] rest IH]; simpl; intros Hnone field types Hin.
  - by apply elem_of_nil in Hin.
  - destruct (d !! k) as [v|] eqn:Hk; [|done].
    destruct (isinstance v ts) eqn:Hty; [|done].
    apply elem_of_cons in Hin as [Heq|Hin]; [|by apply IH].
    injection Heq as -> ->. eauto.
Qed.

Lemma check_existence_and_types_strict_sound :
  sound_existence_check check_existence_and_types_strict.
Proof.
  intros d spec Hnone field types Hin.
  destruct (check_existence_and_types_strict_present d spec Hnone field types Hin)
    as (v & -> & Hty).
  done.
Qed.

(** A mapping read through a field accepted as a [str] only. *)
Lemma accepted_str entry : accepted [Str] entry → ∃ s, entry = Some (VStr s).
Proof. destruct entry as [[]|]; simpl; try done. eauto. Qed.

Lemma accepted_present types entry :
  existsb (pytype_eqb NoneType) types = false → accepted types entry →
  ∃ v, entry = Some v ∧ isinstance v types = true.
Proof. destruct entry; simpl; [eauto | congruence]. Qed.

(** *** The validators are their steps, run in order *)

Ltac py_unfold :=
  unfold result, final, passes, first_error, existence_step, extension_step,
    device_step, config_step, bind, call, getitem, ret, raise in *.

Section Steps.

Variable existence_and_types : dict → type_spec → option string.
Variable check_valid_torch_device : value → option string.
Variables whisperx texttile : dict → option string.
Variable object_str : value → string.

Lemma check_valid_input_data_steps d :
  ClipInputValidator.check_valid_input_data
    existence_and_types check_valid_torch_device texttile d
  = first_error (input_steps existence_and_types check_valid_torch_device texttile) d.
Proof.
  unfold ClipInputValidator.check_valid_input_data, input_steps.
  py_unfold.
  destruct (existence_and_types d _); [done|]. cbn beta iota.
  destruct (d !! "mediaFilePath") as [[]|]; cbn beta iota; try done.
  destruct (endswith_any _ _); cbn [negb]; cbn beta iota; [|done].
  destruct (d !! "computeDevice") as [v|] eqn:Hdev; cbn beta iota; [|done].
  destruct v; cbn beta iota; rewrite ?Hdev; cbn beta iota;
    repeat case_match; simplify_eq; done.
Qed.

Lemma check_valid_request_data_steps d :
  TranscribeAndClipRequestValidator.check_valid_request_data
    existence_and_types check_valid_torch_device whisperx texttile object_str d
  = first_error
      (request_steps existence_and_types check_valid_torch_device whisperx texttile) d.
Proof.
  unfold TranscribeAndClipRequestValidator.check_valid_request_data, request_steps.
  py_unfold.
  destruct (existence_and_types d _); [done|]. cbn beta iota.
  destruct (d !! "mediaFilePath") as [[]|] eqn:Hpath; cbn beta iota; try done.
  destruct (endswith_any _ _); cbn [negb]; cbn beta iota; [|by rewrite Hpath].
  destruct (d !! "computeDevice") as [v|] eqn:Hdev; cbn beta iota; [|done].
  destruct v; cbn beta iota; rewrite ?Hdev; cbn beta iota;
    repeat case_match; simplify_eq; done.
Qed.

Lemma read_only_existence_step spec : read_only (existence_step existence_and_types spec).
Proof. apply read_only_call. Qed.

Lemma read_only_extension_step : read_only extension_step.
Proof.
  apply read_only_bind; [apply read_only_getitem|].
  intros []; first [apply read_only_ret | apply read_only_raise].
Qed.

Lemma read_only_device_step : read_only (device_step check_valid_torch_device).
Proof.
  apply read_only_bind; [apply read_only_getitem|].
  intros []; apply read_only_ret.
Qed.

Lemma read_only_config_step config check :
  read_only config → read_only (config_step config check).
Proof. intros H. apply read_only_bind; [done|]. intros c. apply read_only_ret. Qed.

Lemma read_only_input_texttile_config : read_only ClipInputValidator.texttile_config.
Proof.
  unfold ClipInputValidator.texttile_config.
  repeat (apply read_only_bind; [apply read_only_getitem | intros ?]).
  apply read_only_ret.
Qed.

Lemma read_only_request_texttile_config :
  read_only TranscribeAndClipRequestValidator.texttile_config.
Proof.
  unfold TranscribeAndClipRequestValidator.texttile_config.
  repeat (apply read_only_bind; [apply read_only_getitem | intros ?]).
  apply read_only_ret.
Qed.

Lemma read_only_whisperx_config :
  read_only TranscribeAndClipRequestValidator.whisperx_config.
Proof.
  unfold TranscribeAndClipRequestValidator.whisperx_config.
  repeat (apply read_only_bind; [apply read_only_getitem | intros ?]).
  apply read_only_ret.
Qed.

Lemma read_only_input_steps :
  Forall read_only (input_steps existence_and_types check_valid_torch_device texttile).
Proof.
  repeat constructor;
    auto using read_only_existence_step, read_only_extension_step,
      read_only_device_step, read_only_config_step, read_only_input_texttile_config.
Qed.

Lemma read_only_request_steps :
  Forall read_only
    (request_steps existence_and_types check_valid_torch_device whisperx texttile).
Proof.
  repeat constructor;
    auto using read_only_existence_step, read_only_extension_step,
      read_only_device_step, read_only_config_step,
      read_only_request_texttile_config, read_only_whisperx_config.
Qed.

End Steps.

(** [first_error] computes the first failure of steps that only read. *)
Lemma first_error_first_failure steps d :
  Forall read_only steps →
  first_failure steps d (result (first_error steps) d).
Proof.
  induction 1 as [|c cs Hc Hcs IH]; simpl.
  - constructor.
  - unfold result, bind in *. specialize (Hc d). unfold final in Hc.
    destruct (c d) as [[[e|]|x] d'] eqn:Hcd; simpl in *; subst d'.
    + exists [], c, cs. unfold result. by rewrite Hcd.
    + assert (passes c d) as Hpass by (unfold passes, result; by rewrite Hcd).
      unfold first_failure in *.
      destruct (first_error cs d) as [[[e|]|x] d'']; simpl in *.
      * destruct IH as (before & step & after & -> & Hb & Hs).
        exists (c :: before), step, after. by repeat constructor.
      * by constructor.
      * destruct IH as (before & step & after & -> & Hb & Hs).
        exists (c :: before), step, after. by repeat constructor.
    + exists [], c, cs. unfold result. by rewrite Hcd.
Qed.

Lemma first_stop_unique {A} (P : A → Prop) (b1 b2 a1 a2 : list A) (s1 s2 : A) :
  (b1 ++ s1 :: a1 = b2 ++ s2 :: a2)%list →
  Forall P b1 → Forall P b2 → ¬ P s1 → ¬ P s2 → s1 = s2.
Proof.
  revert b2. induction b1 as [|x b1 IH]; intros [|y b2] Heq Hb1 Hb2 Hs1 Hs2;
    simplify_eq/=.
  - done.
  - by apply Forall_cons in Hb2 as [Hp _].
  - by apply Forall_cons in Hb1 as [Hp _].
  - apply Forall_cons in Hb1 as [_ Hb1]. apply Forall_cons in Hb2 as [_ Hb2].
    by apply (IH b2).
Qed.

Lemma first_failure_cases steps d r :
  first_failure steps d r →
  (r = Returns None ∧ Forall (λ step, passes step d) steps) ∨
  (r ≠ Returns None ∧ ∃ before step after,
     steps = (before ++ step :: after)%list ∧
     Forall (λ step, passes step d) before ∧ result step d = r).
Proof. destruct r as [[e|]|x]; simpl; intros H; [right | left | right]; by split. Qed.

(** The outcome of a run is determined by the steps up to the first one that
    does not pass. *)
Lemma first_failure_unique steps d r1 r2 :
  first_failure steps d r1 → first_failure steps d r2 → r1 = r2.
Proof.
  intros H1 H2. apply first_failure_cases in H1, H2.
  destruct H1 as [[-> Hall1]|[Hne1 (b1 & s1 & a1 & Heq1 & Hb1 & Hs1)]];
    destruct H2 as [[-> Hall2]|[Hne2 (b2 & s2 & a2 & Heq2 & Hb2 & Hs2)]].
  - done.
  - exfalso. subst steps. apply Forall_app in Hall1 as [_ Hall1].
    apply Forall_cons in Hall1 as [Hp _]. unfold passes in Hp. congruence.
  - exfalso. subst steps. apply Forall_app in Hall2 as [_ Hall2].
    apply Forall_cons in Hall2 as [Hp _]. unfold passes in Hp. congruence.
  - subst steps.
    assert (s1 = s2) as <-; [|congruence].
    apply (first_stop_unique (λ step, passes step d) b1 b2 a1 a2); try done;
      unfold passes; congruence.
Qed.

(** C1. Both validators evaluate their checks in the fixed order
    existence-and-type, file extension, device (only on a compute device that
    is not None), transcriber configuration (request variant only), clip-finder
    configuration: each is [first_error] of its list of steps, so it answers
    with the first error a step produces, nothing after that step being run,
    and answers None only when every step passes. *)
Theorem check_valid_data_runs_steps_in_order
    (existence_and_types : dict → type_spec → option string)
    (check_valid_torch_device : value → option string)
    (whisperx texttile : dict → option string) (object_str : value → string)
    (d : dict) :
  let input := ClipInputValidator.check_valid_input_data
                 existence_and_types check_valid_torch_device texttile in
  let request := TranscribeAndClipRequestValidator.check_valid_request_data
                   existence_and_types check_valid_torch_device whisperx texttile
                   object_str in
  let steps_of_input :=
    input_steps existence_and_types check_valid_torch_device texttile in
  let steps_of_request :=
    request_steps existence_and_types check_valid_torch_device whisperx texttile in
  input d = first_error steps_of_input d
  ∧ request d = first_error steps_of_request d
  ∧ first_failure steps_of_input d (result input d)
  ∧ first_failure steps_of_request d (result request d).
Proof.
  intros input request steps_of_input steps_of_request.
  assert (input d = first_error steps_of_input d) as Hi
    by apply check_valid_input_data_steps.
  assert (request d = first_error steps_of_request d) as Hr
    by apply check_valid_request_data_steps.
  repeat split; [done | done | |].
  - unfold result. rewrite Hi. apply first_error_first_failure, read_only_input_steps.
  - unfold result. rewrite Hr. apply first_error_first_failure, read_only_request_steps.
Qed.

(** *** Default imputation *)

Lemma impute_input_data_defaults_loop :
  ClipInputValidator.impute_input_data_defaults
  = impute_with ClipInputValidator.optional_fields_default_values.
Proof. reflexivity. Qed.

Lemma impute_request_data_defaults_loop :
  TranscribeAndClipRequestValidator.impute_request_data_defaults
  = impute_with TranscribeAndClipRequestValidator.optional_fields_default_values.
Proof. reflexivity. Qed.

Section Imputation.

Variable defaults : list (string * value).

Lemma table_lookup_list_to_map key :
  (list_to_map defaults : dict) !! key = table_lookup defaults key.
Proof.
  induction defaults as [|[k v] rest IH]; simpl; [apply lookup_empty|].
  destruct (String.eqb_spec k key) as [->|Hne].
  - apply lookup_insert_eq.
  - by rewrite lookup_insert_ne.
Qed.

Lemma table_lookup_keys key :
  key ∈ keys defaults → is_Some (table_lookup defaults key).
Proof.
  unfold keys. induction defaults as [|[k v] rest IH]; simpl; intros Hin.
  - by apply elem_of_nil in Hin.
  - destruct (String.eqb_spec k key) as [->|Hne]; [eauto|].
    apply elem_of_cons in Hin as [?|?]; [congruence | by apply IH].
Qed.

Lemma table_lookup_not_keys key :
  key ∉ keys defaults → table_lookup defaults key = None.
Proof.
  unfold keys. induction defaults as [|[k v] rest IH]; simpl; intros Hin; [done|].
  apply not_elem_of_cons in Hin as [Hne Hin].
  destruct (String.eqb_spec k key) as [->|_]; [done | by apply IH].
Qed.

(** The loop over a list of keys of the table: it never raises, and a key is
    bound afterwards to what it was bound to before or, if it was unbound and
    among the keys visited, to its default. *)
Lemma for_each_impute ks : ∀ d,
  (∀ key, key ∈ ks → is_Some (table_lookup defaults key)) →
  ∃ d',
    for_each ks (λ key,
      let* present := contains key in
      if negb present then
        let* default := table_getitem defaults key in
        setitem key default
      else ret tt) d = (Returns tt, d')
    ∧ ∀ key, d' !! key =
        match d !! key with
        | Some v => Some v
        | None => if bool_decide (key ∈ ks) then table_lookup defaults key else None
        end.
Proof.
  induction ks as [|x xs IH]; intros d Hks.
  - exists d. split; [done|]. intros key. rewrite bool_decide_eq_false_2.
    + by destruct (d !! key).
    + apply not_elem_of_nil.
  - cbn [for_each]. unfold bind at 1. unfold bind at 1. unfold contains at 1.
    destruct (d !! x) as [vx|] eqn:Hx.
    + rewrite bool_decide_eq_true_2 by eauto. cbn [negb]. cbn beta iota.
      destruct (IH d) as (d' & Hrun & Hd'); [intros; apply Hks; by right|].
      unfold ret at 1. cbn beta iota.
      exists d'. split; [done|]. intros key. rewrite Hd'.
      destruct (d !! key) eqn:Hkey; [done|].
      assert (key ≠ x) by congruence.
      destruct (decide (key ∈ xs)).
      * rewrite !bool_decide_eq_true_2; [done | by right | done].
      * rewrite !bool_decide_eq_false_2; [done | | done].
        by intros [?|?]%elem_of_cons.
    + rewrite bool_decide_eq_false_2 by (intros [? ?]; congruence).
      cbn [negb]. cbn beta iota.
      destruct (Hks x) as [vx Hvx]; [by left|].
      unfold bind at 1, table_getitem. rewrite Hvx. unfold ret at 1, setitem.
      cbn beta iota.
      destruct (IH (<[x:=vx]> d)) as (d' & Hrun & Hd'); [intros; apply Hks; by right|].
      exists d'. split; [done|]. intros key. rewrite Hd'.
      destruct (decide (key = x)) as [->|Hne].
      * rewrite lookup_insert_eq, Hx.
        rewrite bool_decide_eq_true_2 by (by left). done.
      * rewrite lookup_insert_ne by done.
        destruct (d !! key) eqn:Hkey; [done|].
        destruct (decide (key ∈ xs)).
        -- rewrite !bool_decide_eq_true_2; [done | by right | done].
        -- rewrite !bool_decide_eq_false_2; [done | | done].
           by intros [?|?]%elem_of_cons.
Qed.

(** Imputation returns the caller's dictionary, which now is the old one
    completed by the default table. *)
Lemma impute_with_spec d :
  impute_with defaults d = (Returns (impute_spec defaults d), impute_spec defaults d).
Proof.
  destruct (for_each_impute (keys defaults) d) as (d' & Hrun & Hd').
  { apply table_lookup_keys. }
  unfold impute_with. unfold bind at 1. rewrite Hrun. unfold this.
  assert (d' = impute_spec defaults d) as ->; [|done].
  apply map_eq. intros key. rewrite Hd'. unfold impute_spec.
  rewrite lookup_union, table_lookup_list_to_map.
  destruct (d !! key) eqn:Hkey.
  - by destruct (table_lookup defaults key).
  - destruct (decide (key ∈ keys defaults)).
    + rewrite bool_decide_eq_true_2 by done. by destruct (table_lookup defaults key).
    + rewrite bool_decide_eq_false_2 by done. by rewrite table_lookup_not_keys.
Qed.

Lemma final_impute_with d : final (impute_with defaults) d = impute_spec defaults d.
Proof. unfold final. by rewrite impute_with_spec. Qed.

Lemma result_impute_with d :
  result (impute_with defaults) d = Returns (impute_spec defaults d).
Proof. unfold result. by rewrite impute_with_spec. Qed.

Lemma impute_spec_idempotent d :
  impute_spec defaults (impute_spec defaults d) = impute_spec defaults d.
Proof.
  unfold impute_spec. by rewrite <- (assoc_L (∪)), (idemp_L (∪)).
Qed.

Lemma impute_spec_present d key v :
  d !! key = Some v → impute_spec defaults d !! key = Some v.
Proof. intros H. unfold impute_spec. by apply lookup_union_Some_l. Qed.

Lemma impute_spec_frame d key :
  key ∉ keys defaults → impute_spec defaults d !! key = d !! key.
Proof.
  intros H. unfold impute_spec.
  rewrite lookup_union, table_lookup_list_to_map, table_lookup_not_keys by done.
  by destruct (d !! key).
Qed.

Lemma impute_spec_absent d key :
  d !! key = None → impute_spec defaults d !! key = table_lookup defaults key.
Proof.
  intros H. unfold impute_spec.
  rewrite lookup_union, table_lookup_list_to_map, H.
  by destruct (table_lookup defaults key).
Qed.

End Imputation.

(** *** The default table, idempotence and the frame of imputation *)

(** Membership of a literal key in a literal list of keys. *)
Ltac key_listed := unfold keys; cbn [map fst]; repeat first [by left | right].
Ltac key_not_listed :=
  unfold keys; cbn [map fst]; intros Hlisted;
  repeat (apply elem_of_cons in Hlisted as [Hlisted|Hlisted]; [discriminate Hlisted|]);
  by apply elem_of_nil in Hlisted.
Ltac absent_by H := apply H; key_listed.

(** C4. On a mapping that has none of the optional fields, input imputation
    inserts exactly computeDevice=None, cutoffPolicy="high",
    embeddingAggregationPoolMethod="max", minClipTime=15, maxClipTime=900,
    smoothingWidth=3 and windowComparePoolMethod="mean"; request imputation
    inserts these and precision=None, languageCode="en" and
    whisperModelSize=None.  On the mapping holding only mediaFilePath="a.mp4"
    request imputation gives languageCode "en", minClipTime 15, maxClipTime
    900 and computeDevice None. *)
Theorem impute_defaults_inserts_default_table :
  (∀ d : dict,
     (∀ key, key ∈ keys ClipInputValidator.optional_fields_default_values →
             d !! key = None) →
     final ClipInputValidator.impute_input_data_defaults d =
       <["computeDevice" := VNone]>
       (<["cutoffPolicy" := VStr "high"]>
       (<["embeddingAggregationPoolMethod" := VStr "max"]>
       (<["minClipTime" := VInt 15]>
       (<["maxClipTime" := VInt 900]>
       (<["smoothingWidth" := VInt 3]>
       (<["windowComparePoolMethod" := VStr "mean"]> d)))))))
  ∧ (∀ d : dict,
     (∀ key, key ∈ keys TranscribeAndClipRequestValidator.optional_fields_default_values →
             d !! key = None) →
     final TranscribeAndClipRequestValidator.impute_request_data_defaults d =
       <["computeDevice" := VNone]>
       (<["precision" := VNone]>
       (<["languageCode" := VStr "en"]>
       (<["whisperModelSize" := VNone]>
       (<["cutoffPolicy" := VStr "high"]>
       (<["embeddingAggregationPoolMethod" := VStr "max"]>
       (<["minClipTime" := VInt 15]>
       (<["maxClipTime" := VInt 900]>
       (<["smoothingWidth" := VInt 3]>
       (<["windowComparePoolMethod" := VStr "mean"]> d))))))))))
  ∧ (∃ imputed : dict,
     TranscribeAndClipRequestValidator.impute_request_data_defaults
       {[ "mediaFilePath" := VStr "a.mp4" ]} = (Returns imputed, imputed)
     ∧ imputed !! "languageCode" = Some (VStr "en")
     ∧ imputed !! "minClipTime" = Some (VInt 15)
     ∧ imputed !! "maxClipTime" = Some (VInt 900)
     ∧ imputed !! "computeDevice" = Some VNone
     ∧ imputed !! "mediaFilePath" = Some (VStr "a.mp4")).
Proof.
  split; [|split].
  - intros d H.
    rewrite impute_input_data_defaults_loop, final_impute_with.
    unfold impute_spec, ClipInputValidator.optional_fields_default_values.
    rewrite !list_to_map_cons, list_to_map_nil.
    repeat (rewrite <- insert_union_r by absent_by H).
    by rewrite (right_id_L ∅ (∪)).
  - intros d H.
    rewrite impute_request_data_defaults_loop, final_impute_with.
    unfold impute_spec, TranscribeAndClipRequestValidator.optional_fields_default_values.
    rewrite !list_to_map_cons, list_to_map_nil.
    repeat (rewrite <- insert_union_r by absent_by H).
    by rewrite (right_id_L ∅ (∪)).
  - eexists. rewrite impute_request_data_defaults_loop. split; [apply impute_with_spec|].
    repeat split;
      first [ by apply impute_spec_present, lookup_singleton_eq
            | by rewrite impute_spec_absent by (by apply lookup_singleton_ne) ].
Qed.

(** The bare mapping of the scenario has none of the optional fields, and the
    general statement gives its imputation in full. *)
Lemma impute_defaults_inserts_default_table_witness :
  final TranscribeAndClipRequestValidator.impute_request_data_defaults
    {[ "mediaFilePath" := VStr "a.mp4" ]} =
       <["computeDevice" := VNone]>
       (<["precision" := VNone]>
       (<["languageCode" := VStr "en"]>
       (<["whisperModelSize" := VNone]>
       (<["cutoffPolicy" := VStr "high"]>
       (<["embeddingAggregationPoolMethod" := VStr "max"]>
       (<["minClipTime" := VInt 15]>
       (<["maxClipTime" := VInt 900]>
       (<["smoothingWidth" := VInt 3]>
       (<["windowComparePoolMethod" := VStr "mean"]>
         {[ "mediaFilePath" := VStr "a.mp4" ]}))))))))).
Proof.
  apply (proj1 (proj2 impute_defaults_inserts_default_table)).
  intros key Hkey. apply lookup_singleton_ne.
  intros <-. revert Hkey. key_not_listed.
Defined.

(** C5. Both imputation methods are idempotent, and a key that is already
    present, be it bound to None, keeps its value. *)
Theorem impute_defaults_idempotent (d : dict) :
  let input := ClipInputValidator.impute_input_data_defaults in
  let request := TranscribeAndClipRequestValidator.impute_request_data_defaults in
  final input (final input d) = final input d
  ∧ final request (final request d) = final request d
  ∧ (∀ key v, d !! key = Some v → final input d !! key = Some v)
  ∧ (∀ key v, d !! key = Some v → final request d !! key = Some v).
Proof.
  intros input request. subst input request.
  rewrite impute_input_data_defaults_loop, impute_request_data_defaults_loop.
  rewrite !final_impute_with.
  repeat split; auto using impute_spec_idempotent, impute_spec_present.
Qed.

(** A caller who set computeDevice and precision to None and minClipTime to
    30 finds them unchanged after imputation, once and twice. *)
Lemma impute_defaults_idempotent_witness :
  let d : dict := <["computeDevice" := VNone]> (<["precision" := VNone]>
                   {[ "minClipTime" := VInt 30 ]}) in
  final ClipInputValidator.impute_input_data_defaults d !! "computeDevice" = Some VNone
  ∧ final TranscribeAndClipRequestValidator.impute_request_data_defaults d
      !! "minClipTime" = Some (VInt 30)
  ∧ final ClipInputValidator.impute_input_data_defaults
      (final ClipInputValidator.impute_input_data_defaults d)
    = final ClipInputValidator.impute_input_data_defaults d.
Proof.
  intros d.
  pose proof (impute_defaults_idempotent d) as (Hi & _ & Hpi & Hpr).
  split; [|split].
  - apply Hpi. apply lookup_insert_eq.
  - apply Hpr. subst d. by rewrite !lookup_insert_ne, lookup_singleton_eq.
  - exact Hi.
Defined.

(** C9. Imputation touches only the keys of its default table: any other key,
    mediaFilePath and unrecognised keys among them, is bound after imputation
    exactly as before, so a mapping without mediaFilePath is still without it. *)
Theorem impute_defaults_frame (d : dict) :
  let input := ClipInputValidator.impute_input_data_defaults in
  let request := TranscribeAndClipRequestValidator.impute_request_data_defaults in
  (∀ key, key ∉ keys ClipInputValidator.optional_fields_default_values →
          final input d !! key = d !! key)
  ∧ (∀ key, key ∉ keys TranscribeAndClipRequestValidator.optional_fields_default_values →
          final request d !! key = d !! key)
  ∧ final input d !! "mediaFilePath" = d !! "mediaFilePath"
  ∧ final request d !! "mediaFilePath" = d !! "mediaFilePath"
  ∧ (d !! "mediaFilePath" = None →
       final input d !! "mediaFilePath" = None
       ∧ final request d !! "mediaFilePath" = None).
Proof.
  intros input request. subst input request.
  rewrite impute_input_data_defaults_loop, impute_request_data_defaults_loop.
  rewrite !final_impute_with.
  assert ("mediaFilePath" ∉ keys ClipInputValidator.optional_fields_default_values)
    as Hi by key_not_listed.
  assert ("mediaFilePath"
            ∉ keys TranscribeAndClipRequestValidator.optional_fields_default_values)
    as Hr by key_not_listed.
  repeat split; intros; rewrite ?impute_spec_frame; done.
Qed.

(** Imputing the empty mapping supplies no media path, and an unrecognised
    key keeps its binding. *)
Lemma impute_defaults_frame_witness :
  final ClipInputValidator.impute_input_data_defaults ∅ !! "mediaFilePath" = None
  ∧ final TranscribeAndClipRequestValidator.impute_request_data_defaults ∅
      !! "mediaFilePath" = None
  ∧ final ClipInputValidator.impute_input_data_defaults {[ "verbose" := VBool true ]}
      !! "verbose" = Some (VBool true).
Proof.
  pose proof (impute_defaults_frame ∅) as (_ & _ & _ & _ & Hempty).
  destruct (Hempty (lookup_empty _)) as [Hinput Hrequest].
  pose proof (impute_defaults_frame {[ "verbose" := VBool true ]}) as (Hother & _).
  split; [exact Hinput | split; [exact Hrequest|]].
  rewrite Hother.
  - apply lookup_singleton_eq.
  - key_not_listed.
Defined.

(** *** Validation only reads *)

(** C8. Validation leaves the caller's mapping exactly as it was, whatever
    the collaborators answer (the inherited existence-and-type check being a
    function of the mapping) and whether the validator returns or raises; the
    imputation methods are the ones that mutate it: they change the empty
    mapping. *)
Theorem check_valid_data_leaves_mapping_unchanged
    (existence_and_types : dict → type_spec → option string)
    (check_valid_torch_device : value → option string)
    (whisperx texttile : dict → option string) (object_str : value → string)
    (d : dict) :
  final (ClipInputValidator.check_valid_input_data
           existence_and_types check_valid_torch_device texttile) d = d
  ∧ final (TranscribeAndClipRequestValidator.check_valid_request_data
             existence_and_types check_valid_torch_device whisperx texttile
             object_str) d = d
  ∧ final ClipInputValidator.impute_input_data_defaults ∅ ≠ ∅
  ∧ final TranscribeAndClipRequestValidator.impute_request_data_defaults ∅ ≠ ∅.
Proof.
  split; [|split; [|split]].
  - unfold final. rewrite check_valid_input_data_steps.
    apply read_only_first_error, read_only_input_steps.
  - unfold final. rewrite check_valid_request_data_steps.
    apply read_only_first_error, read_only_request_steps.
  - rewrite impute_input_data_defaults_loop, final_impute_with. intros Heq.
    assert (impute_spec ClipInputValidator.optional_fields_default_values ∅
              !! "computeDevice" = Some VNone) as Hdev
      by (by rewrite impute_spec_absent by apply lookup_empty).
    rewrite Heq in Hdev. by rewrite lookup_empty in Hdev.
  - rewrite impute_request_data_defaults_loop, final_impute_with. intros Heq.
    assert (impute_spec TranscribeAndClipRequestValidator.optional_fields_default_values ∅
              !! "computeDevice" = Some VNone) as Hdev
      by (by rewrite impute_spec_absent by apply lookup_empty).
    rewrite Heq in Hdev. by rewrite lookup_empty in Hdev.
Qed.

(** *** What a passed existence-and-type check gives the later steps *)

Ltac item_listed := repeat first [by left | right].

Lemma sound_present existence_and_types d correct_types field types :
  sound_existence_check existence_and_types →
  existence_and_types d correct_types = None →
  (field, types) ∈ correct_types →
  existsb (pytype_eqb NoneType) types = false →
  ∃ v, d !! field = Some v ∧ isinstance v types = true.
Proof.
  intros Hsound Hnone Hin Hnull.
  by apply accepted_present, (Hsound d correct_types Hnone).
Qed.

Lemma sound_media_file_path existence_and_types d correct_types :
  sound_existence_check existence_and_types →
  existence_and_types d correct_types = None →
  ("mediaFilePath", [Str]) ∈ correct_types →
  ∃ path, d !! "mediaFilePath" = Some (VStr path).
Proof.
  intros Hsound Hnone Hin. by apply accepted_str, (Hsound d correct_types Hnone).
Qed.

Lemma input_texttile_config_run d policy aggregation hi lo width compare :
  d !! "cutoffPolicy" = Some policy →
  d !! "embeddingAggregationPoolMethod" = Some aggregation →
  d !! "maxClipTime" = Some hi →
  d !! "minClipTime" = Some lo →
  d !! "smoothingWidth" = Some width →
  d !! "windowComparePoolMethod" = Some compare →
  ClipInputValidator.texttile_config d =
    (Returns (<["cutoff_policy" := policy]>
             (<["embedding_aggregation_pool_method" := aggregation]>
             (<["max_clip_duration_secs" := hi]>
             (<["min_clip_duration_secs" := lo]>
             (<["smoothing_width" := width]>
             (<["window_compare_pool_method" := compare]> ∅)))))), d).
Proof.
  intros H1 H2 H3 H4 H5 H6. unfold ClipInputValidator.texttile_config.
  rewrite (bind_getitem_Some _ _ _ _ H1), (bind_getitem_Some _ _ _ _ H2),
    (bind_getitem_Some _ _ _ _ H3), (bind_getitem_Some _ _ _ _ H4),
    (bind_getitem_Some _ _ _ _ H5), (bind_getitem_Some _ _ _ _ H6).
  done.
Qed.

Lemma request_texttile_config_run d policy aggregation hi lo width compare :
  d !! "cutoffPolicy" = Some policy →
  d !! "embeddingAggregationPoolMethod" = Some aggregation →
  d !! "maxClipTime" = Some hi →
  d !! "minClipTime" = Some lo →
  d !! "smoothingWidth" = Some width →
  d !! "windowComparePoolMethod" = Some compare →
  TranscribeAndClipRequestValidator.texttile_config d =
    (Returns (<["cutoff_policy" := policy]>
             (<["embedding_aggregation_pool_method" := aggregation]>
             (<["max_clip_duration_secs" := hi]>
             (<["min_clip_duration_secs" := lo]>
             (<["smoothing_width" := width]>
             (<["window_compare_pool_method" := compare]> ∅)))))), d).
Proof.
  intros H1 H2 H3 H4 H5 H6. unfold TranscribeAndClipRequestValidator.texttile_config.
  rewrite (bind_getitem_Some _ _ _ _ H1), (bind_getitem_Some _ _ _ _ H2),
    (bind_getitem_Some _ _ _ _ H3), (bind_getitem_Some _ _ _ _ H4),
    (bind_getitem_Some _ _ _ _ H5), (bind_getitem_Some _ _ _ _ H6).
  done.
Qed.

Lemma whisperx_config_run d language model_size precision :
  d !! "languageCode" = Some language →
  d !! "whisperModelSize" = Some model_size →
  d !! "precision" = Some precision →
  TranscribeAndClipRequestValidator.whisperx_config d =
    (Returns (<["language" := language]>
             (<["model_size" := model_size]>
             (<["precision" := precision]> ∅))), d).
Proof.
  intros H1 H2 H3. unfold TranscribeAndClipRequestValidator.whisperx_config.
  rewrite (bind_getitem_Some _ _ _ _ H1), (bind_getitem_Some _ _ _ _ H2),
    (bind_getitem_Some _ _ _ _ H3).
  done.
Qed.

(** A sub-configuration for the transcriber is built only from a mapping
    that has the three outer fields. *)
Lemma whisperx_config_built d config :
  result TranscribeAndClipRequestValidator.whisperx_config d = Returns config →
  ∃ language model_size precision,
    d !! "languageCode" = Some language
    ∧ d !! "whisperModelSize" = Some model_size
    ∧ d !! "precision" = Some precision
    ∧ config = <["language" := language]>
               (<["model_size" := model_size]>
               (<["precision" := precision]> ∅)).
Proof.
  unfold result, TranscribeAndClipRequestValidator.whisperx_config.
  destruct (d !! "languageCode") as [language|] eqn:H1;
    [rewrite (bind_getitem_Some _ _ _ _ H1)
    |by rewrite (bind_getitem_None _ _ _ H1)].
  destruct (d !! "whisperModelSize") as [model_size|] eqn:H2;
    [rewrite (bind_getitem_Some _ _ _ _ H2)
    |by rewrite (bind_getitem_None _ _ _ H2)].
  destruct (d !! "precision") as [precision|] eqn:H3;
    [rewrite (bind_getitem_Some _ _ _ _ H3)
    |by rewrite (bind_getitem_None _ _ _ H3)].
  unfold ret. cbn [fst]. intros [= <-]. by exists language, model_size, precision.
Qed.

(** The six clip fields of a mapping that passed a sound existence-and-type
    check over a type specification that lists them. *)
Lemma sound_clip_fields existence_and_types d correct_types :
  sound_existence_check existence_and_types →
  existence_and_types d correct_types = None →
  ("cutoffPolicy", [Str]) ∈ correct_types →
  ("embeddingAggregationPoolMethod", [Str]) ∈ correct_types →
  ("maxClipTime", [Float; Int]) ∈ correct_types →
  ("minClipTime", [Float; Int]) ∈ correct_types →
  ("smoothingWidth", [Int]) ∈ correct_types →
  ("windowComparePoolMethod", [Str]) ∈ correct_types →
  ∃ policy aggregation hi lo width compare,
    (d !! "cutoffPolicy" = Some policy ∧ isinstance policy [Str] = true)
    ∧ (d !! "embeddingAggregationPoolMethod" = Some aggregation
       ∧ isinstance aggregation [Str] = true)
    ∧ (d !! "maxClipTime" = Some hi ∧ isinstance hi [Float; Int] = true)
    ∧ (d !! "minClipTime" = Some lo ∧ isinstance lo [Float; Int] = true)
    ∧ (d !! "smoothingWidth" = Some width ∧ isinstance width [Int] = true)
    ∧ (d !! "windowComparePoolMethod" = Some compare
       ∧ isinstance compare [Str] = true).
Proof.
  intros Hsound Hnone H1 H2 H3 H4 H5 H6.
  destruct (sound_present _ _ _ _ _ Hsound Hnone H1 eq_refl) as (policy & ?).
  destruct (sound_present _ _ _ _ _ Hsound Hnone H2 eq_refl) as (aggregation & ?).
  destruct (sound_present _ _ _ _ _ Hsound Hnone H3 eq_refl) as (hi & ?).
  destruct (sound_present _ _ _ _ _ Hsound Hnone H4 eq_refl) as (lo & ?).
  destruct (sound_present _ _ _ _ _ Hsound Hnone H5 eq_refl) as (width & ?).
  destruct (sound_present _ _ _ _ _ Hsound Hnone H6 eq_refl) as (compare & ?).
  by exists policy, aggregation, hi, lo, width, compare.
Qed.

Lemma input_clip_fields existence_and_types d :
  sound_existence_check existence_and_types →
  existence_and_types d ClipInputValidator.correct_types = None →
  ∃ policy aggregation hi lo width compare,
    (d !! "cutoffPolicy" = Some policy ∧ isinstance policy [Str] = true)
    ∧ (d !! "embeddingAggregationPoolMethod" = Some aggregation
       ∧ isinstance aggregation [Str] = true)
    ∧ (d !! "maxClipTime" = Some hi ∧ isinstance hi [Float; Int] = true)
    ∧ (d !! "minClipTime" = Some lo ∧ isinstance lo [Float; Int] = true)
    ∧ (d !! "smoothingWidth" = Some width ∧ isinstance width [Int] = true)
    ∧ (d !! "windowComparePoolMethod" = Some compare
       ∧ isinstance compare [Str] = true).
Proof.
  intros Hsound Hnone.
  apply (sound_clip_fields _ _ _ Hsound Hnone);
    unfold ClipInputValidator.correct_types; item_listed.
Qed.

Lemma request_clip_fields existence_and_types d :
  sound_existence_check existence_and_types →
  existence_and_types d TranscribeAndClipRequestValidator.correct_types = None →
  ∃ policy aggregation hi lo width compare,
    (d !! "cutoffPolicy" = Some policy ∧ isinstance policy [Str] = true)
    ∧ (d !! "embeddingAggregationPoolMethod" = Some aggregation
       ∧ isinstance aggregation [Str] = true)
    ∧ (d !! "maxClipTime" = Some hi ∧ isinstance hi [Float; Int] = true)
    ∧ (d !! "minClipTime" = Some lo ∧ isinstance lo [Float; Int] = true)
    ∧ (d !! "smoothingWidth" = Some width ∧ isinstance width [Int] = true)
    ∧ (d !! "windowComparePoolMethod" = Some compare
       ∧ isinstance compare [Str] = true).
Proof.
  intros Hsound Hnone.
  apply (sound_clip_fields _ _ _ Hsound Hnone);
    unfold TranscribeAndClipRequestValidator.correct_types; item_listed.
Qed.

Lemma first_error_pass step later d :
  read_only step → passes step d →
  first_error (step :: later) d = first_error later d.
Proof.
  intros Hro Hpass. specialize (Hro d). unfold passes, result, final in *.
  cbn [first_error]. unfold bind.
  destruct (step d) as [r d']. cbn [fst snd] in *. by subst.
Qed.

Lemma first_error_stop step later d r :
  result step d = r → r ≠ Returns None →
  result (first_error (step :: later)) d = r.
Proof.
  intros Hr Hne. unfold result in *. cbn [first_error]. unfold bind.
  destruct (step d) as [[[e|]|x] d']; cbn [fst] in *; subst; done.
Qed.

Lemma passes_existence_step existence_and_types correct_types d :
  passes (existence_step existence_and_types correct_types) d
  ↔ existence_and_types d correct_types = None.
Proof.
  unfold passes, result, existence_step, call. cbn [fst].
  split; [by intros [= ->] | by intros ->].
Qed.

Lemma has_media_extension_endswith path :
  has_media_extension path ↔ endswith_any path [".mp3"; ".mp4"] = true.
Proof.
  rewrite endswith_any_suffix. unfold has_media_extension. split.
  - intros (stem & [->| ->]); [exists ".mp3", stem | exists ".mp4", stem];
      (split; [item_listed | done]).
  - intros (suffix & stem & Hin & ->). exists stem.
    apply elem_of_cons in Hin as [->|Hin]; [by left|].
    apply elem_of_cons in Hin as [->|Hin]; [by right|].
    by apply elem_of_nil in Hin.
Qed.

Lemma extension_step_run d path :
  d !! "mediaFilePath" = Some (VStr path) →
  result extension_step d =
    Returns (if endswith_any path [".mp3"; ".mp4"] then None
             else Some (extension_error path)).
Proof.
  intros H. unfold result, extension_step. by rewrite (bind_getitem_Some _ _ _ _ H).
Qed.

(** *** The file extension check *)

(** Once the first two steps pass, a validator answers what its remaining
    steps answer. *)
Lemma input_after_extension existence_and_types check_valid_torch_device texttile d :
  passes (existence_step existence_and_types ClipInputValidator.correct_types) d →
  passes extension_step d →
  result (ClipInputValidator.check_valid_input_data
            existence_and_types check_valid_torch_device texttile) d
  = result (first_error
      [ device_step check_valid_torch_device;
        config_step ClipInputValidator.texttile_config texttile ]) d.
Proof.
  intros H1 H2. unfold result at 1.
  rewrite check_valid_input_data_steps. unfold input_steps.
  by rewrite !first_error_pass
    by auto using read_only_existence_step, read_only_extension_step.
Qed.

Lemma request_after_extension existence_and_types check_valid_torch_device
    whisperx texttile object_str d :
  passes (existence_step existence_and_types
            TranscribeAndClipRequestValidator.correct_types) d →
  passes extension_step d →
  result (TranscribeAndClipRequestValidator.check_valid_request_data
            existence_and_types check_valid_torch_device whisperx texttile
            object_str) d
  = result (first_error
      [ device_step check_valid_torch_device;
        config_step TranscribeAndClipRequestValidator.whisperx_config whisperx;
        config_step TranscribeAndClipRequestValidator.texttile_config texttile ]) d.
Proof.
  intros H1 H2. unfold result at 1.
  rewrite check_valid_request_data_steps. unfold request_steps.
  by rewrite !first_error_pass
    by auto using read_only_existence_step, read_only_extension_step.
Qed.

(** C3. On a mapping that passed the existence-and-type check, the media file
    path is a string.  If it does not end with the exact suffix .mp3 or .mp4
    the validator returns the error message that ends with the received
    path.  If it does, the extension step produces no error: the validator
    goes on, and its answer is the answer of the steps that follow (device,
    transcriber for the request variant, clip finder). *)
Theorem extension_check_decides_by_suffix
    (existence_and_types : dict → type_spec → option string)
    (check_valid_torch_device : value → option string)
    (whisperx texttile : dict → option string) (object_str : value → string)
    (Hsound : sound_existence_check existence_and_types) (d : dict) :
  (existence_and_types d ClipInputValidator.correct_types = None →
   ∃ path, d !! "mediaFilePath" = Some (VStr path)
     ∧ (has_media_extension path →
        passes extension_step d
        ∧ result (ClipInputValidator.check_valid_input_data
                    existence_and_types check_valid_torch_device texttile) d
          = result (first_error
              [ device_step check_valid_torch_device;
                config_step ClipInputValidator.texttile_config texttile ]) d)
     ∧ (¬ has_media_extension path →
        result (ClipInputValidator.check_valid_input_data
                  existence_and_types check_valid_torch_device texttile) d
        = Returns (Some ("mediaFilePath must be of type mp3 or mp4. Received: "
                         ++ path))))
  ∧ (existence_and_types d TranscribeAndClipRequestValidator.correct_types = None →
   ∃ path, d !! "mediaFilePath" = Some (VStr path)
     ∧ (has_media_extension path →
        passes extension_step d
        ∧ result (TranscribeAndClipRequestValidator.check_valid_request_data
                    existence_and_types check_valid_torch_device whisperx texttile
                    object_str) d
          = result (first_error
              [ device_step check_valid_torch_device;
                config_step TranscribeAndClipRequestValidator.whisperx_config whisperx;
                config_step TranscribeAndClipRequestValidator.texttile_config texttile ])
              d)
     ∧ (¬ has_media_extension path →
        result (TranscribeAndClipRequestValidator.check_valid_request_data
                  existence_and_types check_valid_torch_device whisperx texttile
                  object_str) d
        = Returns (Some ("mediaFilePath must be of type mp3 or mp4. Received: "
                         ++ path)))).
Proof.
  split; intros Hnone.
  - destruct (sound_media_file_path _ _ _ Hsound Hnone) as [path Hpath];
      [unfold ClipInputValidator.correct_types; item_listed|].
    exists path. split; [done|]. pose proof (extension_step_run d path Hpath) as Hext.
    split; intros Hsuffix; rewrite has_media_extension_endswith in Hsuffix.
    + assert (passes extension_step d) as Hpass
        by (unfold passes; by rewrite Hext, Hsuffix).
      split; [done|].
      apply input_after_extension; [by apply passes_existence_step | done].
    + apply not_true_is_false in Hsuffix. rewrite Hsuffix in Hext.
      unfold result at 1. rewrite check_valid_input_data_steps. unfold input_steps.
      rewrite first_error_pass;
        [|apply read_only_existence_step | by apply passes_existence_step].
      by apply first_error_stop.
  - destruct (sound_media_file_path _ _ _ Hsound Hnone) as [path Hpath];
      [unfold TranscribeAndClipRequestValidator.correct_types; item_listed|].
    exists path. split; [done|]. pose proof (extension_step_run d path Hpath) as Hext.
    split; intros Hsuffix; rewrite has_media_extension_endswith in Hsuffix.
    + assert (passes extension_step d) as Hpass
        by (unfold passes; by rewrite Hext, Hsuffix).
      split; [done|].
      apply request_after_extension; [by apply passes_existence_step | done].
    + apply not_true_is_false in Hsuffix. rewrite Hsuffix in Hext.
      unfold result at 1. rewrite check_valid_request_data_steps. unfold request_steps.
      rewrite first_error_pass;
        [|apply read_only_existence_step | by apply passes_existence_step].
      by apply first_error_stop.
Qed.

(** The scenarios of the design document: with "a.wav" for the media path
    the input validator answers with the message that names "a.wav"; with
    "a.mp3" the request validator goes past the extension check, and here
    on to None. *)
Lemma extension_check_decides_by_suffix_witness :
  result (ClipInputValidator.check_valid_input_data
            check_existence_and_types device_check texttile_check)
         (<["mediaFilePath" := VStr "a.wav"]> scenario_input)
  = Returns (Some "mediaFilePath must be of type mp3 or mp4. Received: a.wav")
  ∧ result (TranscribeAndClipRequestValidator.check_valid_request_data
              check_existence_and_types device_check whisperx_check texttile_check
              type_name_str) scenario_request
    = Returns None.
Proof.
  split.
  - destruct (proj1 (extension_check_decides_by_suffix
                       check_existence_and_types device_check whisperx_check
                       texttile_check type_name_str check_existence_and_types_sound
                       (<["mediaFilePath" := VStr "a.wav"]> scenario_input)))
      as (path & Hpath & _ & Hreject); [by vm_compute|].
    vm_compute in Hpath. injection Hpath as <-.
    apply Hreject. rewrite has_media_extension_endswith. by vm_compute.
  - destruct (proj2 (extension_check_decides_by_suffix
                       check_existence_and_types device_check whisperx_check
                       texttile_check type_name_str check_existence_and_types_sound
                       scenario_request))
      as (path & Hpath & Haccept & _); [by vm_compute|].
    vm_compute in Hpath. injection Hpath as <-.
    destruct Haccept as [_ Hgoes_on];
      [rewrite has_media_extension_endswith; by vm_compute|].
    rewrite Hgoes_on. by vm_compute.
Defined.

(** *** The sub-configurations *)

Lemma first_error_single step d : result (first_error [step]) d = result step d.
Proof.
  unfold result. cbn [first_error]. unfold bind, ret.
  by destruct (step d) as [[[e|]|x] d'].
Qed.

Lemma config_step_run config check d sub_config :
  result config d = Returns sub_config →
  result (config_step config check) d = Returns (check sub_config).
Proof.
  unfold result, config_step, bind, ret.
  destruct (config d) as [[c|x] d']; cbn [fst]; [by intros [= ->] | done].
Qed.

Lemma texttile_renames d policy aggregation hi lo width compare :
  d !! "cutoffPolicy" = Some policy →
  d !! "embeddingAggregationPoolMethod" = Some aggregation →
  d !! "maxClipTime" = Some hi →
  d !! "minClipTime" = Some lo →
  d !! "smoothingWidth" = Some width →
  d !! "windowComparePoolMethod" = Some compare →
  renames texttile_fields d
    (<["cutoff_policy" := policy]>
    (<["embedding_aggregation_pool_method" := aggregation]>
    (<["max_clip_duration_secs" := hi]>
    (<["min_clip_duration_secs" := lo]>
    (<["smoothing_width" := width]>
    (<["window_compare_pool_method" := compare]> ∅)))))).
Proof.
  intros H1 H2 H3 H4 H5 H6. split.
  - rewrite !dom_insert_L, dom_empty_L. cbn [texttile_fields map fst list_to_set foldr].
    done.
  - unfold texttile_fields.
    repeat (apply List.Forall_cons;
      [cbn [fst snd]; rewrite ?H1, ?H2, ?H3, ?H4, ?H5, ?H6;
       (rewrite ?lookup_insert_ne by discriminate); rewrite lookup_insert_eq; eauto|]).
    apply List.Forall_nil.
Qed.

Lemma whisperx_renames d language model_size precision :
  d !! "languageCode" = Some language →
  d !! "whisperModelSize" = Some model_size →
  d !! "precision" = Some precision →
  renames whisperx_fields d
    (<["language" := language]>
    (<["model_size" := model_size]>
    (<["precision" := precision]> ∅))).
Proof.
  intros H1 H2 H3. split.
  - rewrite !dom_insert_L, dom_empty_L. cbn [whisperx_fields map fst list_to_set foldr].
    done.
  - unfold whisperx_fields.
    repeat (apply List.Forall_cons;
      [cbn [fst snd]; rewrite ?H1, ?H2, ?H3;
       (rewrite ?lookup_insert_ne by discriminate); rewrite lookup_insert_eq; eauto|]).
    apply List.Forall_nil.
Qed.

Section AfterEarlierSteps.

Variable existence_and_types : dict → type_spec → option string.
Variable check_valid_torch_device : value → option string.
Variables whisperx texttile : dict → option string.
Variable object_str : value → string.

(** Once the first three steps pass, the input validator answers what the
    clip-finder step answers. *)
Lemma input_after_device d :
  passes (existence_step existence_and_types ClipInputValidator.correct_types) d →
  passes extension_step d →
  passes (device_step check_valid_torch_device) d →
  result (ClipInputValidator.check_valid_input_data
            existence_and_types check_valid_torch_device texttile) d
  = result (config_step ClipInputValidator.texttile_config texttile) d.
Proof.
  intros H1 H2 H3. unfold result at 1.
  rewrite check_valid_input_data_steps. unfold input_steps.
  rewrite !first_error_pass
    by auto using read_only_existence_step, read_only_extension_step,
         read_only_device_step.
  apply first_error_single.
Qed.

(** Once the first three steps pass, the request validator answers what the
    transcriber step and then the clip-finder step answer. *)
Lemma request_after_device d :
  passes (existence_step existence_and_types
            TranscribeAndClipRequestValidator.correct_types) d →
  passes extension_step d →
  passes (device_step check_valid_torch_device) d →
  result (TranscribeAndClipRequestValidator.check_valid_request_data
            existence_and_types check_valid_torch_device whisperx texttile
            object_str) d
  = result (first_error
      [ config_step TranscribeAndClipRequestValidator.whisperx_config whisperx;
        config_step TranscribeAndClipRequestValidator.texttile_config texttile ]) d.
Proof.
  intros H1 H2 H3. unfold result at 1.
  rewrite check_valid_request_data_steps. unfold request_steps.
  by rewrite !first_error_pass
    by auto using read_only_existence_step, read_only_extension_step,
         read_only_device_step.
Qed.

Lemma request_after_transcriber d :
  passes (existence_step existence_and_types
            TranscribeAndClipRequestValidator.correct_types) d →
  passes extension_step d →
  passes (device_step check_valid_torch_device) d →
  passes (config_step TranscribeAndClipRequestValidator.whisperx_config whisperx) d →
  result (TranscribeAndClipRequestValidator.check_valid_request_data
            existence_and_types check_valid_torch_device whisperx texttile
            object_str) d
  = result (config_step TranscribeAndClipRequestValidator.texttile_config texttile) d.
Proof.
  intros H1 H2 H3 H4. rewrite request_after_device by done. unfold result at 1.
  rewrite first_error_pass
    by auto using read_only_config_step, read_only_whisperx_config.
  apply first_error_single.
Qed.

End AfterEarlierSteps.

(** C6. On a mapping that passed the existence-and-type check, the
    sub-configuration handed to the text-tiling manager has exactly the keys
    cutoff_policy, embedding_aggregation_pool_method, max_clip_duration_secs,
    min_clip_duration_secs, smoothing_width and window_compare_pool_method,
    bound to the values of cutoffPolicy, embeddingAggregationPoolMethod,
    maxClipTime, minClipTime, smoothingWidth and windowComparePoolMethod; the
    request variant hands the transcriber manager exactly language,
    model_size and precision, bound to languageCode, whisperModelSize and
    precision.  "Handed": once the earlier steps pass, the validator's answer
    is the manager's answer on that very mapping. *)
Theorem sub_configurations_rename_outer_fields
    (existence_and_types : dict → type_spec → option string)
    (check_valid_torch_device : value → option string)
    (whisperx texttile : dict → option string) (object_str : value → string)
    (Hsound : sound_existence_check existence_and_types) (d : dict) :
  (existence_and_types d ClipInputValidator.correct_types = None →
   ∃ config,
     ClipInputValidator.texttile_config d = (Returns config, d)
     ∧ renames texttile_fields d config
     ∧ (passes extension_step d → passes (device_step check_valid_torch_device) d →
        result (ClipInputValidator.check_valid_input_data
                  existence_and_types check_valid_torch_device texttile) d
        = Returns (texttile config)))
  ∧ (existence_and_types d TranscribeAndClipRequestValidator.correct_types = None →
     (∃ config,
        TranscribeAndClipRequestValidator.texttile_config d = (Returns config, d)
        ∧ renames texttile_fields d config)
     ∧ (∀ config,
        result TranscribeAndClipRequestValidator.whisperx_config d = Returns config →
        renames whisperx_fields d config)
     ∧ (is_Some (d !! "whisperModelSize") → is_Some (d !! "precision") →
        ∃ config,
          TranscribeAndClipRequestValidator.whisperx_config d = (Returns config, d))
     ∧ (∀ transcriber_config clip_config,
        passes extension_step d → passes (device_step check_valid_torch_device) d →
        result TranscribeAndClipRequestValidator.whisperx_config d
          = Returns transcriber_config →
        result TranscribeAndClipRequestValidator.texttile_config d
          = Returns clip_config →
        result (TranscribeAndClipRequestValidator.check_valid_request_data
                  existence_and_types check_valid_torch_device whisperx texttile
                  object_str) d
        = Returns (match whisperx transcriber_config with
                   | Some e => Some e
                   | None => texttile clip_config
                   end))).
Proof.
  split; intros Hnone.
  - destruct (input_clip_fields _ _ Hsound Hnone)
      as (policy & aggregation & hi & lo & width & compare
          & [H1 _] & [H2 _] & [H3 _] & [H4 _] & [H5 _] & [H6 _]).
    eexists. split; [by apply input_texttile_config_run|].
    split; [by apply texttile_renames|].
    intros Hext Hdev. rewrite input_after_device; [|by apply passes_existence_step|done..].
    apply config_step_run. unfold result.
    by rewrite (input_texttile_config_run _ _ _ _ _ _ _ H1 H2 H3 H4 H5 H6).
  - destruct (request_clip_fields _ _ Hsound Hnone)
      as (policy & aggregation & hi & lo & width & compare
          & [H1 _] & [H2 _] & [H3 _] & [H4 _] & [H5 _] & [H6 _]).
    split; [|split; [|split]].
    + eexists. split; [by apply request_texttile_config_run | by apply texttile_renames].
    + intros config Hbuilt.
      apply whisperx_config_built in Hbuilt
        as (language & model_size & precision & Hl & Hm & Hp & ->).
      by apply whisperx_renames.
    + intros [model_size Hm] [precision Hp].
      destruct (sound_present _ _ _ "languageCode" [Str] Hsound Hnone)
        as (language & Hl & _);
        [unfold TranscribeAndClipRequestValidator.correct_types; item_listed | done |].
      eexists. by apply whisperx_config_run.
    + intros transcriber_config clip_config Hext Hdev Hw Hc.
      rewrite request_after_device; [|by apply passes_existence_step|done..].
      pose proof (config_step_run _ whisperx _ _ Hw) as Hwstep.
      pose proof (config_step_run _ texttile _ _ Hc) as Hcstep.
      destruct (whisperx transcriber_config) as [e|] eqn:Hanswer.
      * by apply first_error_stop.
      * rewrite <- Hcstep. unfold result at 1. rewrite first_error_pass;
          [|by auto using read_only_config_step, read_only_whisperx_config|done].
        apply first_error_single.
Qed.

(** On the request scenario of the design document both sub-configurations
    are built, with the renamed keys and the scenario's values. *)
Lemma sub_configurations_rename_outer_fields_witness :
  (∃ config,
     TranscribeAndClipRequestValidator.texttile_config scenario_request
       = (Returns config, scenario_request)
     ∧ renames texttile_fields scenario_request config)
  ∧ (∃ config,
     TranscribeAndClipRequestValidator.whisperx_config scenario_request
       = (Returns config, scenario_request)
     ∧ renames whisperx_fields scenario_request config).
Proof.
  destruct (proj2 (sub_configurations_rename_outer_fields
                     check_existence_and_types device_check whisperx_check
                     texttile_check type_name_str check_existence_and_types_sound
                     scenario_request))
    as (Hclip & Hrenamed & Hbuilt & _); [by vm_compute|].
  split; [exact Hclip|].
  destruct Hbuilt as [config Hconfig]; [vm_compute; eauto | vm_compute; eauto |].
  exists config. split; [exact Hconfig|].
  apply Hrenamed. unfold result. by rewrite Hconfig.
Defined.

(** *** The ordering of the clip durations *)

(** The sub-configuration built from type-checked clip fields is complete
    and well typed. *)
Lemma derived_texttile_config_well_formed policy aggregation hi lo width compare :
  isinstance policy [Str] = true →
  isinstance aggregation [Str] = true →
  isinstance hi [Float; Int] = true →
  isinstance lo [Float; Int] = true →
  isinstance width [Int] = true →
  isinstance compare [Str] = true →
  texttile_config_well_formed
    (<["cutoff_policy" := policy]>
    (<["embedding_aggregation_pool_method" := aggregation]>
    (<["max_clip_duration_secs" := hi]>
    (<["min_clip_duration_secs" := lo]>
    (<["smoothing_width" := width]>
    (<["window_compare_pool_method" := compare]> ∅)))))).
Proof.
  intros H1 H2 H3 H4 H5 H6.
  unfold texttile_config_well_formed, texttile_config_types.
  cbn [check_existence_and_types_strict].
  repeat ((rewrite ?lookup_insert_ne by discriminate); rewrite lookup_insert_eq;
          rewrite ?H1, ?H2, ?H3, ?H4, ?H5, ?H6).
  done.
Qed.

(** The text-tiling manager of the design document reports a minimum clip
    duration above the maximum, and before any other constraint. *)
Lemma texttile_config_check_enforces_order cutoff_policies pool_methods :
  enforces_clip_time_order (texttile_config_check cutoff_policies pool_methods)
    (λ e, e = clip_time_error).
Proof.
  intros config lo hi Hwf Hlo Hhi Hgt. exists clip_time_error. split; [|done].
  unfold texttile_config_check. unfold texttile_config_well_formed in Hwf.
  rewrite Hwf, Hlo, Hhi.
  pose proof (check_existence_and_types_strict_present _ _ Hwf) as Hpresent.
  destruct (Hpresent "smoothing_width" [Int]) as (width & -> & _);
    [unfold texttile_config_types; item_listed|].
  destruct (Hpresent "cutoff_policy" [Str]) as (policy & -> & _);
    [unfold texttile_config_types; item_listed|].
  destruct (Hpresent "embedding_aggregation_pool_method" [Str]) as (aggregation & -> & _);
    [unfold texttile_config_types; item_listed|].
  destruct (Hpresent "window_compare_pool_method" [Str]) as (compare & -> & _);
    [unfold texttile_config_types; item_listed|].
  by rewrite Hgt.
Qed.

(** C7. A mapping that passes the existence-and-type, extension, device and
    (request variant) transcriber checks but whose minClipTime is greater
    than its maxClipTime is answered with the range-violation message of the
    clip-finder manager, as the manager gave it. *)
Theorem clip_time_order_violation_is_reported
    (existence_and_types : dict → type_spec → option string)
    (check_valid_torch_device : value → option string)
    (whisperx texttile : dict → option string) (object_str : value → string)
    (range_violation : string → Prop)
    (Hsound : sound_existence_check existence_and_types)
    (Horder : enforces_clip_time_order texttile range_violation)
    (d : dict) (lo hi : value) :
  d !! "minClipTime" = Some lo →
  d !! "maxClipTime" = Some hi →
  py_gt lo hi = true →
  (passes (existence_step existence_and_types ClipInputValidator.correct_types) d →
   passes extension_step d →
   passes (device_step check_valid_torch_device) d →
   ∃ config e,
     result ClipInputValidator.texttile_config d = Returns config
     ∧ texttile config = Some e
     ∧ range_violation e
     ∧ result (ClipInputValidator.check_valid_input_data
                 existence_and_types check_valid_torch_device texttile) d
       = Returns (Some e))
  ∧ (passes (existence_step existence_and_types
               TranscribeAndClipRequestValidator.correct_types) d →
   passes extension_step d →
   passes (device_step check_valid_torch_device) d →
   passes (config_step TranscribeAndClipRequestValidator.whisperx_config whisperx) d →
   ∃ config e,
     result TranscribeAndClipRequestValidator.texttile_config d = Returns config
     ∧ texttile config = Some e
     ∧ range_violation e
     ∧ result (TranscribeAndClipRequestValidator.check_valid_request_data
                 existence_and_types check_valid_torch_device whisperx texttile
                 object_str) d
       = Returns (Some e)).
Proof.
  intros Hlo Hhi Hgt. split.
  - intros Hexists Hext Hdev.
    destruct (input_clip_fields _ _ Hsound (proj1 (passes_existence_step _ _ _) Hexists))
      as (policy & aggregation & hi' & lo' & width & compare
          & [H1 T1] & [H2 T2] & [H3 T3] & [H4 T4] & [H5 T5] & [H6 T6]).
    assert (hi' = hi) as -> by congruence. assert (lo' = lo) as -> by congruence.
    pose proof (input_texttile_config_run _ _ _ _ _ _ _ H1 H2 H3 H4 H5 H6) as Hrun.
    destruct (Horder _ lo hi (derived_texttile_config_well_formed _ _ _ _ _ _
                                T1 T2 T3 T4 T5 T6)) as (e & Hanswer & Hrange).
    { rewrite !lookup_insert_ne by discriminate. apply lookup_insert_eq. }
    { rewrite !lookup_insert_ne by discriminate. apply lookup_insert_eq. }
    { done. }
    eexists _, e. split; [unfold result; by rewrite Hrun|].
    split; [done|]. split; [done|].
    rewrite input_after_device by done. rewrite <- Hanswer.
    apply config_step_run. unfold result. by rewrite Hrun.
  - intros Hexists Hext Hdev Hwhisperx.
    destruct (request_clip_fields _ _ Hsound (proj1 (passes_existence_step _ _ _) Hexists))
      as (policy & aggregation & hi' & lo' & width & compare
          & [H1 T1] & [H2 T2] & [H3 T3] & [H4 T4] & [H5 T5] & [H6 T6]).
    assert (hi' = hi) as -> by congruence. assert (lo' = lo) as -> by congruence.
    pose proof (request_texttile_config_run _ _ _ _ _ _ _ H1 H2 H3 H4 H5 H6) as Hrun.
    destruct (Horder _ lo hi (derived_texttile_config_well_formed _ _ _ _ _ _
                                T1 T2 T3 T4 T5 T6)) as (e & Hanswer & Hrange).
    { rewrite !lookup_insert_ne by discriminate. apply lookup_insert_eq. }
    { rewrite !lookup_insert_ne by discriminate. apply lookup_insert_eq. }
    { done. }
    eexists _, e. split; [unfold result; by rewrite Hrun|].
    split; [done|]. split; [done|].
    rewrite request_after_transcriber by done. rewrite <- Hanswer.
    apply config_step_run. unfold result. by rewrite Hrun.
Qed.

(** The scenario of the design document, 2000 against 900: both validators
    answer with the manager's message on the clip durations. *)
Lemma clip_time_order_violation_is_reported_witness :
  result (ClipInputValidator.check_valid_input_data
            check_existence_and_types device_check texttile_check)
         (<["minClipTime" := VInt 2000]> scenario_input)
  = Returns (Some clip_time_error)
  ∧ result (TranscribeAndClipRequestValidator.check_valid_request_data
              check_existence_and_types device_check whisperx_check texttile_check
              type_name_str)
           (<["minClipTime" := VInt 2000]> scenario_request)
    = Returns (Some clip_time_error).
Proof.
  split.
  - destruct (clip_time_order_violation_is_reported
                check_existence_and_types device_check whisperx_check
                texttile_check type_name_str (λ e, e = clip_time_error)
                check_existence_and_types_sound
                (texttile_config_check_enforces_order _ _)
                (<["minClipTime" := VInt 2000]> scenario_input)
                (VInt 2000) (VInt 900))
      as [Hinput _]; [by vm_compute..|].
    destruct Hinput as (config & e & _ & _ & -> & Hanswer); [by vm_compute..|].
    exact Hanswer.
  - destruct (clip_time_order_violation_is_reported
                check_existence_and_types device_check whisperx_check
                texttile_check type_name_str (λ e, e = clip_time_error)
                check_existence_and_types_sound
                (texttile_config_check_enforces_order _ _)
                (<["minClipTime" := VInt 2000]> scenario_request)
                (VInt 2000) (VInt 900))
      as [_ Hrequest]; [by vm_compute..|].
    destruct Hrequest as (config & e & _ & _ & -> & Hanswer); [by vm_compute..|].
    exact Hanswer.
Defined.

(** *** The clip-finder step of the two validators *)

(** The outer fields the text-tiling sub-configuration is built from. *)
Lemma texttile_outer_fields :
  map snd texttile_fields =
    [ "cutoffPolicy"; "embeddingAggregationPoolMethod"; "maxClipTime";
      "minClipTime"; "smoothingWidth"; "windowComparePoolMethod" ].
Proof. reflexivity. Qed.

Ltac agree_on H key :=
  let Hr := fresh "Hr" in
  let Hi := fresh "Hi" in
  let v := fresh "v" in
  pose proof (H key ltac:(item_listed)) as Hr;
  match type of Hr with
  | _ = ?lookup =>
      destruct lookup as [v|] eqn:Hi;
      [ rewrite (bind_getitem_Some _ _ _ _ Hr), (bind_getitem_Some _ _ _ _ Hi)
      | by rewrite (bind_getitem_None _ _ _ Hr), (bind_getitem_None _ _ _ Hi) ]
  end.

(** The two methods build the same sub-configuration from mappings that
    agree on the six clip fields. *)
Lemma texttile_config_agree (d_request d_input : dict) :
  (∀ field, field ∈ map snd texttile_fields → d_request !! field = d_input !! field) →
  result TranscribeAndClipRequestValidator.texttile_config d_request
  = result ClipInputValidator.texttile_config d_input.
Proof.
  rewrite texttile_outer_fields. intros H.
  unfold result, TranscribeAndClipRequestValidator.texttile_config,
    ClipInputValidator.texttile_config.
  agree_on H "cutoffPolicy".
  agree_on H "embeddingAggregationPoolMethod".
  agree_on H "maxClipTime".
  agree_on H "minClipTime".
  agree_on H "smoothingWidth".
  agree_on H "windowComparePoolMethod".
  done.
Qed.

Lemma config_step_agree config1 config2 check1 check2 (d1 d2 : dict) :
  result config1 d1 = result config2 d2 →
  (∀ c, check1 c = check2 c) →
  result (config_step config1 check1) d1 = result (config_step config2 check2) d2.
Proof.
  unfold result, config_step, bind, ret. intros Hc Hsame.
  destruct (config1 d1) as [[c1|x1] ?], (config2 d2) as [[c2|x2] ?];
    cbn [fst] in *; simplify_eq; by rewrite ?Hsame.
Qed.




(** *** Returning and raising *)

Lemma first_error_returns steps d :
  Forall read_only steps →
  Forall (λ step, ∃ r, result step d = Returns r) steps →
  ∃ r, result (first_error steps) d = Returns r.
Proof.
  induction 1 as [|step later Hro _ IH]; intros Hall.
  - by exists None.
  - apply Forall_cons in Hall as [[[e|] Hstep] Hlater].
    + exists (Some e). by apply first_error_stop.
    + destruct (IH Hlater) as [r Hr]. exists r.
      unfold result. by rewrite first_error_pass.
Qed.

Lemma device_step_run check_valid_torch_device d v :
  d !! "computeDevice" = Some v →
  result (device_step check_valid_torch_device) d =
    Returns (match v with VNone => None | _ => check_valid_torch_device v end).
Proof.
  intros H. unfold result, device_step. rewrite (bind_getitem_Some _ _ _ _ H).
  by destruct v.
Qed.

Section Returns.

Variable existence_and_types : dict → type_spec → option string.
Variable check_valid_torch_device : value → option string.
Variables whisperx texttile : dict → option string.
Variable object_str : value → string.
Hypothesis Hsound : sound_existence_check existence_and_types.

(** With the compute device present, be it None, the input validator
    returns. *)
Lemma check_valid_input_data_returns d :
  is_Some (d !! "computeDevice") →
  ∃ r, result (ClipInputValidator.check_valid_input_data
                 existence_and_types check_valid_torch_device texttile) d
       = Returns r.
Proof.
  intros [device Hdevice]. unfold result at 1.
  rewrite check_valid_input_data_steps. unfold input_steps.
  destruct (existence_and_types d ClipInputValidator.correct_types) as [e|] eqn:Hex.
  { exists (Some e). apply first_error_stop; [|done].
    unfold result, existence_step, call. cbn [fst]. by rewrite Hex. }
  apply first_error_returns; [apply read_only_input_steps|].
  destruct (sound_media_file_path _ _ _ Hsound Hex) as [path Hpath];
    [unfold ClipInputValidator.correct_types; item_listed|].
  destruct (input_clip_fields _ _ Hsound Hex)
    as (policy & aggregation & hi & lo & width & compare
        & [H1 _] & [H2 _] & [H3 _] & [H4 _] & [H5 _] & [H6 _]).
  repeat apply List.Forall_cons; [| | | |apply List.Forall_nil].
  - eexists. unfold result, existence_step, call. by cbn [fst].
  - eexists. by apply extension_step_run.
  - eexists. by apply device_step_run.
  - eexists. apply config_step_run. unfold result.
    by rewrite (input_texttile_config_run _ _ _ _ _ _ _ H1 H2 H3 H4 H5 H6).
Qed.

(** With the compute device, the model size and the precision present, be
    they None, the request validator returns. *)
Lemma check_valid_request_data_returns d :
  is_Some (d !! "computeDevice") →
  is_Some (d !! "whisperModelSize") →
  is_Some (d !! "precision") →
  ∃ r, result (TranscribeAndClipRequestValidator.check_valid_request_data
                 existence_and_types check_valid_torch_device whisperx texttile
                 object_str) d
       = Returns r.
Proof.
  intros [device Hdevice] [model_size Hmodel] [precision Hprecision]. unfold result at 1.
  rewrite check_valid_request_data_steps. unfold request_steps.
  destruct (existence_and_types d TranscribeAndClipRequestValidator.correct_types)
    as [e|] eqn:Hex.
  { exists (Some e). apply first_error_stop; [|done].
    unfold result, existence_step, call. cbn [fst]. by rewrite Hex. }
  apply first_error_returns; [apply read_only_request_steps|].
  destruct (sound_media_file_path _ _ _ Hsound Hex) as [path Hpath];
    [unfold TranscribeAndClipRequestValidator.correct_types; item_listed|].
  destruct (sound_present _ _ _ "languageCode" [Str] Hsound Hex)
    as (language & Hlanguage & _);
    [unfold TranscribeAndClipRequestValidator.correct_types; item_listed | done |].
  destruct (request_clip_fields _ _ Hsound Hex)
    as (policy & aggregation & hi & lo & width & compare
        & [H1 _] & [H2 _] & [H3 _] & [H4 _] & [H5 _] & [H6 _]).
  repeat apply List.Forall_cons; [| | | | |apply List.Forall_nil].
  - eexists. unfold result, existence_step, call. by cbn [fst].
  - eexists. by apply extension_step_run.
  - eexists. by apply device_step_run.
  - eexists. apply config_step_run. unfold result.
    by rewrite (whisperx_config_run _ _ _ _ Hlanguage Hmodel Hprecision).
  - eexists. apply config_step_run. unfold result.
    by rewrite (request_texttile_config_run _ _ _ _ _ _ _ H1 H2 H3 H4 H5 H6).
Qed.

End Returns.

(** The validators return on every mapping behind the presence and type
    validation that wants every field. *)
Lemma strict_check_valid_data_returns
    (check_valid_torch_device : value → option string)
    (whisperx texttile : dict → option string) (object_str : value → string)
    (d : dict) :
  (∃ r, result (ClipInputValidator.check_valid_input_data
                  check_existence_and_types_strict check_valid_torch_device
                  texttile) d = Returns r)
  ∧ (∃ r, result (TranscribeAndClipRequestValidator.check_valid_request_data
                    check_existence_and_types_strict check_valid_torch_device
                    whisperx texttile object_str) d = Returns r).
Proof.
  split.
  - destruct (check_existence_and_types_strict d ClipInputValidator.correct_types)
      as [e|] eqn:Hex.
    + exists (Some e). unfold result at 1. rewrite check_valid_input_data_steps.
      apply first_error_stop; [|done].
      unfold result, existence_step, call. cbn [fst]. by rewrite Hex.
    + apply check_valid_input_data_returns;
        [apply check_existence_and_types_strict_sound|].
      destruct (check_existence_and_types_strict_present _ _ Hex
                  "computeDevice" [Str; NoneType]) as (v & -> & _);
        [unfold ClipInputValidator.correct_types; item_listed | eauto].
  - destruct (check_existence_and_types_strict d
                TranscribeAndClipRequestValidator.correct_types) as [e|] eqn:Hex.
    + exists (Some e). unfold result at 1. rewrite check_valid_request_data_steps.
      apply first_error_stop; [|done].
      unfold result, existence_step, call. cbn [fst]. by rewrite Hex.
    + pose proof (check_existence_and_types_strict_present _ _ Hex) as Hpresent.
      apply check_valid_request_data_returns;
        [apply check_existence_and_types_strict_sound|..].
      * destruct (Hpresent "computeDevice" [Str; NoneType]) as (v & -> & _);
          [unfold TranscribeAndClipRequestValidator.correct_types; item_listed | eauto].
      * destruct (Hpresent "whisperModelSize" [Str; NoneType]) as (v & -> & _);
          [unfold TranscribeAndClipRequestValidator.correct_types; item_listed | eauto].
      * destruct (Hpresent "precision" [Str; NoneType]) as (v & -> & _);
          [unfold TranscribeAndClipRequestValidator.correct_types; item_listed | eauto].
Qed.

(** A check that wants every listed field present is sound. *)
Lemma present_check_is_sound
    (existence_and_types : dict → type_spec → option string) :
  (∀ d correct_types, existence_and_types d correct_types = None →
                      satisfies correct_types d) →
  sound_existence_check existence_and_types.
Proof.
  intros Hpresent d spec Hnone field types Hin.
  destruct (Hpresent d spec Hnone field types Hin) as (v & -> & Hty). done.
Qed.

(** C2. The validators never raise: on every mapping, also one from which a
    nullable field such as computeDevice is absent, they return None or an
    error message.  The inherited existence-and-type check passes only a
    mapping that has every listed field with an accepted type, so every
    subscript behind it finds its key and [endswith] is asked of a string;
    this holds whatever the device check and the managers answer and
    whatever messages the inherited check words. *)
Theorem check_valid_data_never_raises
    (existence_and_types : dict → type_spec → option string)
    (check_valid_torch_device : value → option string)
    (whisperx texttile : dict → option string) (object_str : value → string)
    (Hpresent : ∀ d correct_types, existence_and_types d correct_types = None →
                                   satisfies correct_types d)
    (d : dict) :
  (∃ r, result (ClipInputValidator.check_valid_input_data
                  existence_and_types check_valid_torch_device texttile) d
        = Returns r)
  ∧ (∃ r, result (TranscribeAndClipRequestValidator.check_valid_request_data
                    existence_and_types check_valid_torch_device whisperx texttile
                    object_str) d
          = Returns r).
Proof.
  pose proof (present_check_is_sound _ Hpresent) as Hsound. split.
  - destruct (existence_and_types d ClipInputValidator.correct_types)
      as [e|] eqn:Hex.
    + exists (Some e). unfold result at 1. rewrite check_valid_input_data_steps.
      apply first_error_stop; [|done].
      unfold result, existence_step, call. cbn [fst]. by rewrite Hex.
    + apply check_valid_input_data_returns; [done|].
      destruct (Hpresent _ _ Hex "computeDevice" [Str; NoneType]) as (v & -> & _);
        [unfold ClipInputValidator.correct_types; item_listed | eauto].
  - destruct (existence_and_types d TranscribeAndClipRequestValidator.correct_types)
      as [e|] eqn:Hex.
    + exists (Some e). unfold result at 1. rewrite check_valid_request_data_steps.
      apply first_error_stop; [|done].
      unfold result, existence_step, call. cbn [fst]. by rewrite Hex.
    + apply check_valid_request_data_returns; [done|..].
      * destruct (Hpresent _ _ Hex "computeDevice" [Str; NoneType]) as (v & -> & _);
          [unfold TranscribeAndClipRequestValidator.correct_types; item_listed | eauto].
      * destruct (Hpresent _ _ Hex "whisperModelSize" [Str; NoneType]) as (v & -> & _);
          [unfold TranscribeAndClipRequestValidator.correct_types; item_listed | eauto].
      * destruct (Hpresent _ _ Hex "precision" [Str; NoneType]) as (v & -> & _);
          [unfold TranscribeAndClipRequestValidator.correct_types; item_listed | eauto].
Qed.

(** The first scenario without its computeDevice entry, and the request
    scenario without its three nullable fields: both validators return. *)
Lemma check_valid_data_never_raises_witness :
  (∃ r, result (ClipInputValidator.check_valid_input_data
                  check_existence_and_types device_check texttile_check)
               (delete "computeDevice" scenario_input)
        = Returns r)
  ∧ (∃ r, result (TranscribeAndClipRequestValidator.check_valid_request_data
                    check_existence_and_types device_check whisperx_check texttile_check
                    type_name_str)
                 (delete "computeDevice"
                    (delete "whisperModelSize" (delete "precision" scenario_request)))
          = Returns r).
Proof.
  split.
  - exact (proj1 (check_valid_data_never_raises
                    check_existence_and_types device_check whisperx_check
                    texttile_check type_name_str check_existence_and_types_present _)).
  - exact (proj2 (check_valid_data_never_raises
                    check_existence_and_types device_check whisperx_check
                    texttile_check type_name_str check_existence_and_types_present _)).
Defined.

(** *** The scenarios of the design document *)

Example scenario_input_is_valid :
  result (ClipInputValidator.check_valid_input_data
            check_existence_and_types device_check texttile_check) scenario_input
  = Returns None.
Proof. by vm_compute. Qed.

Example scenario_request_is_valid :
  result (TranscribeAndClipRequestValidator.check_valid_request_data
            check_existence_and_types device_check whisperx_check texttile_check
            type_name_str) scenario_request
  = Returns None.
Proof. by vm_compute. Qed.

Example scenario_wrong_device :
  result (ClipInputValidator.check_valid_input_data
            check_existence_and_types device_check texttile_check)
         (<["computeDevice" := VStr "cuda:x"]> scenario_input)
  = Returns (Some "Invalid compute device: cuda:x").
Proof. by vm_compute. Qed.

Example scenario_missing_device :
  result (ClipInputValidator.check_valid_input_data
            check_existence_and_types device_check texttile_check)
         (delete "computeDevice" scenario_input)
  = Returns (Some "missing field computeDevice").
Proof. by vm_compute. Qed.

Example scenario_missing_path :
  result (ClipInputValidator.check_valid_input_data
            check_existence_and_types device_check texttile_check)
         (delete "mediaFilePath" scenario_input)
  = Returns (Some "missing field mediaFilePath").
Proof. by vm_compute. Qed.

Example scenario_imputed_then_valid :
  result (TranscribeAndClipRequestValidator.check_valid_request_data
            check_existence_and_types device_check whisperx_check texttile_check
            type_name_str)
         (final TranscribeAndClipRequestValidator.impute_request_data_defaults
                {[ "mediaFilePath" := VStr "a.mp4" ]})
  = Returns None.
Proof. by vm_compute. Qed.

Example device_examples :
  map device_check [VStr "cpu"; VStr "cuda:0"; VStr "cuda"]
    = [None; None; None]
  ∧ map (λ v, bool_decide (device_check v = None))
        [VStr "cuda:x"; VStr "gpu"; VStr ""; VStr "cuda:"]
    = [false; false; false; false].
Proof. by vm_compute. Qed.

Example int_against_float :
  py_gt (VInt 2000) (VFloat (S754_finite false 900 0)) = true
  ∧ py_gt (VFloat (S754_finite false 1 (-1))) (VInt 1) = false
  ∧ py_gt (VInt 1) (VFloat (S754_finite false 1 (-1))) = true
  ∧ py_gt (VFloat S754_nan) (VInt 0) = false.
Proof. by vm_compute. Qed.

(** *** What imputation returns *)

(** Imputation never raises and returns the caller's own mapping, which it
    has completed in place by the default table: a field that was present
    keeps its value and a missing optional field gets its default. *)
Theorem impute_defaults_returns_completed_mapping (d : dict) :
  ClipInputValidator.impute_input_data_defaults d
    = (Returns (d ∪ list_to_map ClipInputValidator.optional_fields_default_values),
       d ∪ list_to_map ClipInputValidator.optional_fields_default_values)
  ∧ TranscribeAndClipRequestValidator.impute_request_data_defaults d
    = (Returns
         (d ∪ list_to_map TranscribeAndClipRequestValidator.optional_fields_default_values),
       d ∪ list_to_map TranscribeAndClipRequestValidator.optional_fields_default_values).
Proof.
  rewrite impute_input_data_defaults_loop, impute_request_data_defaults_loop.
  split; apply impute_with_spec.
Qed.

(** With a sound existence-and-type check, a validator returns (None or an
    error message) on every mapping that has its nullable fields, whatever
    they are bound to: computeDevice for the input validator, and
    computeDevice, whisperModelSize and precision for the request validator.
    These are the mappings imputation produces. *)
Theorem validators_return_when_nullable_fields_present
    (existence_and_types : dict → type_spec → option string)
    (check_valid_torch_device : value → option string)
    (whisperx texttile : dict → option string) (object_str : value → string)
    (Hsound : sound_existence_check existence_and_types) (d : dict) :
  (is_Some (d !! "computeDevice") →
   ∃ r, result (ClipInputValidator.check_valid_input_data
                  existence_and_types check_valid_torch_device texttile) d
        = Returns r)
  ∧ (is_Some (d !! "computeDevice") → is_Some (d !! "whisperModelSize") →
     is_Some (d !! "precision") →
     ∃ r, result (TranscribeAndClipRequestValidator.check_valid_request_data
                    existence_and_types check_valid_torch_device whisperx texttile
                    object_str) d
          = Returns r).
Proof.
  split.
  - by apply check_valid_input_data_returns.
  - by apply check_valid_request_data_returns.
Qed.

(** After imputation the first scenario without its compute device is
    validated without an exception. *)
Lemma validators_return_when_nullable_fields_present_witness :
  ∃ r, result (ClipInputValidator.check_valid_input_data
                 check_existence_and_types device_check texttile_check)
              (final ClipInputValidator.impute_input_data_defaults
                     (delete "computeDevice" scenario_input))
       = Returns r.
Proof.
  apply (validators_return_when_nullable_fields_present
           check_existence_and_types device_check whisperx_check texttile_check
           type_name_str check_existence_and_types_sound).
  vm_compute. eauto.
Defined.

(** ** Further properties of the two classes *)

(** *** Imputation and validation together *)

Lemma impute_spec_key defaults d key :
  key ∈ keys defaults → is_Some (impute_spec defaults d !! key).
Proof.
  intros Hkey. destruct (d !! key) as [v|] eqn:Hd.
  - rewrite (impute_spec_present _ _ _ _ Hd). eauto.
  - rewrite impute_spec_absent by done. by apply table_lookup_keys.
Qed.

(** Validation after imputation never raises: each imputation method leaves
    behind every field its validator subscripts without a guard, so with a
    sound existence-and-type check the validator returns None or a message
    on whatever mapping the caller started from. *)
Theorem validation_after_imputation_returns
    (existence_and_types : dict → type_spec → option string)
    (check_valid_torch_device : value → option string)
    (whisperx texttile : dict → option string) (object_str : value → string)
    (Hsound : sound_existence_check existence_and_types) (d : dict) :
  (∃ r, result (ClipInputValidator.check_valid_input_data
                  existence_and_types check_valid_torch_device texttile)
               (final ClipInputValidator.impute_input_data_defaults d)
        = Returns r)
  ∧ (∃ r, result (TranscribeAndClipRequestValidator.check_valid_request_data
                    existence_and_types check_valid_torch_device whisperx texttile
                    object_str)
                 (final TranscribeAndClipRequestValidator.impute_request_data_defaults d)
          = Returns r).
Proof.
  rewrite impute_input_data_defaults_loop, impute_request_data_defaults_loop.
  rewrite !final_impute_with. split.
  - apply check_valid_input_data_returns; [done|].
    apply impute_spec_key. key_listed.
  - apply check_valid_request_data_returns; [done|..];
      apply impute_spec_key; key_listed.
Qed.

(** Imputing and then validating the empty request: the answer is the
    message about the media path, not an exception. *)
Lemma validation_after_imputation_returns_witness :
  ∃ r, result (TranscribeAndClipRequestValidator.check_valid_request_data
                 check_existence_and_types device_check whisperx_check
                 texttile_check type_name_str)
              (final TranscribeAndClipRequestValidator.impute_request_data_defaults ∅)
       = Returns r.
Proof.
  exact (proj2 (validation_after_imputation_returns
                  check_existence_and_types device_check whisperx_check
                  texttile_check type_name_str check_existence_and_types_sound ∅)).
Defined.

Lemma input_defaults_among_request_defaults key v :
  table_lookup ClipInputValidator.optional_fields_default_values key = Some v →
  table_lookup TranscribeAndClipRequestValidator.optional_fields_default_values key
    = Some v.
Proof.
  unfold ClipInputValidator.optional_fields_default_values. cbn [table_lookup].
  repeat match goal with
         | |- context [String.eqb ?k key] =>
             destruct (String.eqb_spec k key) as [<-|_];
             [intros [= <-]; by vm_compute|]
         end.
  done.
Qed.

Lemma input_defaults_absorbed :
  (list_to_map ClipInputValidator.optional_fields_default_values : dict)
    ∪ list_to_map TranscribeAndClipRequestValidator.optional_fields_default_values
  = list_to_map TranscribeAndClipRequestValidator.optional_fields_default_values
  ∧ (list_to_map TranscribeAndClipRequestValidator.optional_fields_default_values : dict)
      ∪ list_to_map ClipInputValidator.optional_fields_default_values
    = list_to_map TranscribeAndClipRequestValidator.optional_fields_default_values.
Proof.
  split; apply map_eq; intros key;
    rewrite lookup_union, !table_lookup_list_to_map;
    destruct (table_lookup ClipInputValidator.optional_fields_default_values key)
      as [v|] eqn:Hinput;
    try rewrite (input_defaults_among_request_defaults _ _ Hinput); try done;
    by destruct (table_lookup
                   TranscribeAndClipRequestValidator.optional_fields_default_values key).
Qed.

(** The request default table extends the input default table, so request
    imputation subsumes input imputation: run before or after it, input
    imputation changes nothing in what request imputation gives. *)
Theorem request_imputation_subsumes_input_imputation (d : dict) :
  let input := ClipInputValidator.impute_input_data_defaults in
  let request := TranscribeAndClipRequestValidator.impute_request_data_defaults in
  final request (final input d) = final request d
  ∧ final input (final request d) = final request d.
Proof.
  intros input request. subst input request.
  rewrite impute_input_data_defaults_loop, impute_request_data_defaults_loop.
  rewrite !final_impute_with. unfold impute_spec.
  destruct input_defaults_absorbed as [Hbefore Hafter].
  split; rewrite <- (assoc_L (∪)); [by rewrite Hbefore | by rewrite Hafter].
Qed.

(** Imputation changes a mapping exactly when one of the optional fields is
    missing from it: on a mapping that has them all it is the identity. *)
Theorem imputation_fixes_exactly_complete_mappings (d : dict) :
  (final ClipInputValidator.impute_input_data_defaults d = d
   ↔ ∀ key, key ∈ keys ClipInputValidator.optional_fields_default_values →
            is_Some (d !! key))
  ∧ (final TranscribeAndClipRequestValidator.impute_request_data_defaults d = d
     ↔ ∀ key, key ∈ keys TranscribeAndClipRequestValidator.optional_fields_default_values →
              is_Some (d !! key)).
Proof.
  rewrite impute_input_data_defaults_loop, impute_request_data_defaults_loop.
  rewrite !final_impute_with.
  assert (∀ defaults,
    impute_spec defaults d = d ↔ ∀ key, key ∈ keys defaults → is_Some (d !! key))
    as Hany; [|by split; apply Hany].
  intros defaults. split.
  - intros Heq key Hkey. rewrite <- Heq. by apply impute_spec_key.
  - intros Hall. apply map_eq. intros key.
    destruct (d !! key) as [v|] eqn:Hd; [by apply impute_spec_present|].
    rewrite impute_spec_frame; [done|]. intros Hkey.
    destruct (Hall key Hkey) as [v Hv]. congruence.
Qed.

(** The request scenario has every optional field, and imputation returns
    it unchanged. *)
Lemma imputation_fixes_exactly_complete_mappings_witness :
  final TranscribeAndClipRequestValidator.impute_request_data_defaults scenario_request
  = scenario_request.
Proof.
  apply (proj2 (imputation_fixes_exactly_complete_mappings scenario_request)).
  intros key Hkey. unfold keys in Hkey. cbn [map fst] in Hkey.
  repeat (apply elem_of_cons in Hkey as [->|Hkey]; [vm_compute; eauto|]).
  by apply elem_of_nil in Hkey.
Defined.

Ltac spec_item Hin :=
  let Heq := fresh "Heq" in
  apply elem_of_cons in Hin as [Heq|Hin]; [injection Heq as -> ->|].

Ltac completed_field d Hpath Htyped :=
  match goal with
  | |- ∃ v, impute_spec _ d !! ?field = Some v ∧ _ =>
      let v := fresh "v" in
      let Hd := fresh "Hd" in
      destruct (d !! field) as [v|] eqn:Hd;
      [ exists v; split;
        [ by apply impute_spec_present
        | apply (Htyped field _ v); [item_listed | exact Hd] ]
      | first
        [ congruence
        | rewrite impute_spec_absent by exact Hd; eexists; split; by vm_compute ] ]
  end.

(** The default tables agree with the type specifications: from a mapping
    that has a media path and whose listed fields, as far as they are
    present, have accepted types, imputation makes a mapping in which every
    field of the type specification is present with an accepted type. *)
Theorem imputation_completes_well_typed_mapping (d : dict) (path : string) :
  d !! "mediaFilePath" = Some (VStr path) →
  ((∀ field types v, (field, types) ∈ ClipInputValidator.correct_types →
      d !! field = Some v → isinstance v types = true) →
   satisfies ClipInputValidator.correct_types
     (final ClipInputValidator.impute_input_data_defaults d))
  ∧ ((∀ field types v,
        (field, types) ∈ TranscribeAndClipRequestValidator.correct_types →
        d !! field = Some v → isinstance v types = true) →
     satisfies TranscribeAndClipRequestValidator.correct_types
       (final TranscribeAndClipRequestValidator.impute_request_data_defaults d)).
Proof.
  intros Hpath.
  rewrite impute_input_data_defaults_loop, impute_request_data_defaults_loop.
  rewrite !final_impute_with.
  split; intros Htyped field types Hin.
  - unfold ClipInputValidator.correct_types in Hin, Htyped.
    repeat (spec_item Hin; [completed_field d Hpath Htyped|]).
    by apply elem_of_nil in Hin.
  - unfold TranscribeAndClipRequestValidator.correct_types in Hin, Htyped.
    repeat (spec_item Hin; [completed_field d Hpath Htyped|]).
    by apply elem_of_nil in Hin.
Qed.

(** From the mapping that holds only a media path, request imputation makes
    a mapping whose smoothing width is an int. *)
Lemma imputation_completes_well_typed_mapping_witness :
  ∃ v, final TranscribeAndClipRequestValidator.impute_request_data_defaults
         {[ "mediaFilePath" := VStr "a.mp4" ]} !! "smoothingWidth" = Some v
       ∧ isinstance v [Int] = true.
Proof.
  apply (proj2 (imputation_completes_well_typed_mapping
                  {[ "mediaFilePath" := VStr "a.mp4" ]} "a.mp4"
                  (lookup_singleton_eq _ _))).
  - intros field types v Hin.
    unfold TranscribeAndClipRequestValidator.correct_types in Hin.
    repeat (spec_item Hin; [vm_compute; by intros [= <-]|]).
    by apply elem_of_nil in Hin.
  - unfold TranscribeAndClipRequestValidator.correct_types. item_listed.
Defined.

(** *** When the validators raise *)

Lemma first_error_raises step later d x :
  read_only step →
  result (first_error (step :: later)) d = Raises x →
  result step d = Raises x
  ∨ (passes step d ∧ result (first_error later) d = Raises x).
Proof.
  intros Hro. specialize (Hro d). unfold passes, result, final in *.
  cbn [first_error]. unfold bind, ret.
  destruct (step d) as [[[e|]|y] d']; cbn [fst snd] in *; subst; auto.
Qed.

Lemma existence_step_returns existence_and_types correct_types d x :
  result (existence_step existence_and_types correct_types) d ≠ Raises x.
Proof. done. Qed.

Lemma device_step_raises check_valid_torch_device d x :
  result (device_step check_valid_torch_device) d = Raises x →
  x = KeyError "computeDevice" ∧ d !! "computeDevice" = None.
Proof.
  unfold result, device_step.
  destruct (d !! "computeDevice") as [v|] eqn:Hd.
  - rewrite (bind_getitem_Some _ _ _ _ Hd). by destruct v.
  - rewrite (bind_getitem_None _ _ _ Hd). cbn [fst]. by intros [= <-].
Qed.

Lemma device_step_absent check_valid_torch_device d :
  d !! "computeDevice" = None →
  result (device_step check_valid_torch_device) d = Raises (KeyError "computeDevice").
Proof. intros Hd. unfold result, device_step. by rewrite (bind_getitem_None _ _ _ Hd). Qed.

Lemma config_step_raises config check d x :
  result (config_step config check) d = Raises x ↔ result config d = Raises x.
Proof.
  unfold result, config_step, bind, ret.
  destruct (config d) as [[c|y] d']; cbn [fst]; split; congruence.
Qed.

Lemma whisperx_config_raises d x :
  result TranscribeAndClipRequestValidator.whisperx_config d = Raises x →
  ∃ key, key ∈ ["languageCode"; "whisperModelSize"; "precision"]
         ∧ x = KeyError key ∧ d !! key = None.
Proof.
  unfold result, TranscribeAndClipRequestValidator.whisperx_config.
  destruct (d !! "languageCode") as [language|] eqn:H1;
    [rewrite (bind_getitem_Some _ _ _ _ H1)
    |rewrite (bind_getitem_None _ _ _ H1); intros [= <-];
     exists "languageCode"; split; [item_listed | done]].
  destruct (d !! "whisperModelSize") as [model_size|] eqn:H2;
    [rewrite (bind_getitem_Some _ _ _ _ H2)
    |rewrite (bind_getitem_None _ _ _ H2); intros [= <-];
     exists "whisperModelSize"; split; [item_listed | done]].
  destruct (d !! "precision") as [precision|] eqn:H3;
    [rewrite (bind_getitem_Some _ _ _ _ H3)
    |rewrite (bind_getitem_None _ _ _ H3); intros [= <-];
     exists "precision"; split; [item_listed | done]].
  done.
Qed.

(** With a sound existence-and-type check the input validator raises in one
    situation only: the first two steps pass and computeDevice is absent,
    and the exception is then the KeyError of the subscript
    [input_data["computeDevice"]]. *)
Theorem input_validator_raises_exactly_on_absent_device
    (existence_and_types : dict → type_spec → option string)
    (check_valid_torch_device : value → option string)
    (texttile : dict → option string)
    (Hsound : sound_existence_check existence_and_types) (d : dict) :
  let validator := ClipInputValidator.check_valid_input_data
                     existence_and_types check_valid_torch_device texttile in
  (∀ x, result validator d = Raises x →
        x = KeyError "computeDevice" ∧ d !! "computeDevice" = None)
  ∧ (passes (existence_step existence_and_types ClipInputValidator.correct_types) d →
     passes extension_step d →
     d !! "computeDevice" = None →
     result validator d = Raises (KeyError "computeDevice")).
Proof.
  intros validator. subst validator. split.
  - intros x Hraises.
    destruct (d !! "computeDevice") as [v|] eqn:Hdevice.
    + destruct (check_valid_input_data_returns existence_and_types
                  check_valid_torch_device texttile Hsound d) as [r Hr]; [eauto|].
      congruence.
    + split; [|done]. unfold result in Hraises at 1.
      rewrite check_valid_input_data_steps in Hraises. unfold input_steps in Hraises.
      apply first_error_raises in Hraises as [Hraises|[Hexistence Hraises]];
        [by apply existence_step_returns in Hraises | |apply read_only_existence_step].
      apply passes_existence_step in Hexistence.
      destruct (sound_media_file_path _ _ _ Hsound Hexistence) as [path Hpath];
        [unfold ClipInputValidator.correct_types; item_listed|].
      apply first_error_raises in Hraises as [Hraises|[_ Hraises]];
        [by rewrite (extension_step_run _ _ Hpath) in Hraises
        | |apply read_only_extension_step].
      apply first_error_raises in Hraises as [Hraises|[Hpass _]];
        [by apply device_step_raises in Hraises as [-> _]
        | |apply read_only_device_step].
      unfold passes in Hpass. by rewrite device_step_absent in Hpass.
  - intros Hexistence Hextension Hdevice. unfold result at 1.
    rewrite check_valid_input_data_steps. unfold input_steps.
    rewrite !first_error_pass
      by auto using read_only_existence_step, read_only_extension_step.
    apply first_error_stop; [by apply device_step_absent | done].
Qed.

(** A scenario-like mapping without its compute device, behind a check
    that passes it: the first two steps pass and the subscript raises. *)
Lemma input_validator_raises_exactly_on_absent_device_witness :
  result (ClipInputValidator.check_valid_input_data
            check_existence_and_types_lenient device_check texttile_check)
         (delete "computeDevice" (<["mediaFilePath" := VStr "b.mp4"]> scenario_input))
  = Raises (KeyError "computeDevice").
Proof.
  apply (proj2 (input_validator_raises_exactly_on_absent_device
                  check_existence_and_types_lenient device_check texttile_check
                  check_existence_and_types_lenient_sound _)); by vm_compute.
Defined.

(** With a sound existence-and-type check, the only exception the request
    validator raises is the KeyError of a subscript on computeDevice,
    whisperModelSize or precision, and only when that field is absent; and
    when the first three steps pass and whisperModelSize or precision is
    absent it does raise. *)
Theorem request_validator_raises_only_on_absent_nullable_field
    (existence_and_types : dict → type_spec → option string)
    (check_valid_torch_device : value → option string)
    (whisperx texttile : dict → option string) (object_str : value → string)
    (Hsound : sound_existence_check existence_and_types) (d : dict) :
  let validator := TranscribeAndClipRequestValidator.check_valid_request_data
                     existence_and_types check_valid_torch_device whisperx texttile
                     object_str in
  (∀ x, result validator d = Raises x →
        ∃ key, key ∈ ["computeDevice"; "whisperModelSize"; "precision"]
               ∧ x = KeyError key ∧ d !! key = None)
  ∧ (passes (existence_step existence_and_types
               TranscribeAndClipRequestValidator.correct_types) d →
     passes extension_step d →
     passes (device_step check_valid_torch_device) d →
     d !! "whisperModelSize" = None ∨ d !! "precision" = None →
     ∃ key, key ∈ ["whisperModelSize"; "precision"]
            ∧ d !! key = None
            ∧ result validator d = Raises (KeyError key)).
Proof.
  intros validator. subst validator. split.
  - intros x Hraises. unfold result in Hraises at 1.
    rewrite check_valid_request_data_steps in Hraises. unfold request_steps in Hraises.
    apply first_error_raises in Hraises as [Hraises|[Hexistence Hraises]];
      [by apply existence_step_returns in Hraises | |apply read_only_existence_step].
    apply passes_existence_step in Hexistence.
    destruct (sound_media_file_path _ _ _ Hsound Hexistence) as [path Hpath];
      [unfold TranscribeAndClipRequestValidator.correct_types; item_listed|].
    destruct (sound_present _ _ _ "languageCode" [Str] Hsound Hexistence)
      as (language & Hlanguage & _);
      [unfold TranscribeAndClipRequestValidator.correct_types; item_listed | done |].
    destruct (request_clip_fields _ _ Hsound Hexistence)
      as (policy & aggregation & hi & lo & width & compare
          & [H1 _] & [H2 _] & [H3 _] & [H4 _] & [H5 _] & [H6 _]).
    apply first_error_raises in Hraises as [Hraises|[_ Hraises]];
      [by rewrite (extension_step_run _ _ Hpath) in Hraises
      | |apply read_only_extension_step].
    apply first_error_raises in Hraises as [Hraises|[_ Hraises]];
      [apply device_step_raises in Hraises as [-> Habsent];
       exists "computeDevice"; split; [item_listed | done]
      | |apply read_only_device_step].
    apply first_error_raises in Hraises as [Hraises|[_ Hraises]];
      [| |by auto using read_only_config_step, read_only_whisperx_config].
    + apply config_step_raises, whisperx_config_raises in Hraises
        as (key & Hkey & -> & Habsent).
      exists key. split; [|done].
      apply elem_of_cons in Hkey as [->|Hkey]; [congruence | by right].
    + apply first_error_raises in Hraises as [Hraises|[_ Hraises]];
        [| |by auto using read_only_config_step, read_only_request_texttile_config].
      * apply config_step_raises in Hraises. unfold result in Hraises.
        by rewrite (request_texttile_config_run _ _ _ _ _ _ _ H1 H2 H3 H4 H5 H6)
          in Hraises.
      * done.
  - intros Hexistence Hextension Hdevice Habsent.
    destruct (sound_present _ _ _ "languageCode" [Str] Hsound
                (proj1 (passes_existence_step _ _ _) Hexistence))
      as (language & Hlanguage & _);
      [unfold TranscribeAndClipRequestValidator.correct_types; item_listed | done |].
    assert (∃ key, key ∈ ["whisperModelSize"; "precision"] ∧ d !! key = None
              ∧ result TranscribeAndClipRequestValidator.whisperx_config d
                = Raises (KeyError key)) as (key & Hkey & Hnone & Hconfig).
    { unfold result, TranscribeAndClipRequestValidator.whisperx_config.
      rewrite (bind_getitem_Some _ _ _ _ Hlanguage).
      destruct (d !! "whisperModelSize") as [model_size|] eqn:Hmodel.
      - destruct Habsent as [?|Hprecision]; [done|].
        exists "precision". split; [item_listed|]. split; [done|].
        rewrite (bind_getitem_Some _ _ _ _ Hmodel).
        by rewrite (bind_getitem_None _ _ _ Hprecision).
      - exists "whisperModelSize". split; [item_listed|]. split; [done|].
        by rewrite (bind_getitem_None _ _ _ Hmodel). }
    exists key. split; [done|]. split; [done|].
    rewrite request_after_device by done.
    apply first_error_stop; [by apply config_step_raises | done].
Qed.

(** The request scenario without its precision entry, behind a check that
    passes it: the first three steps pass and building the transcriber
    configuration raises. *)
Lemma request_validator_raises_only_on_absent_nullable_field_witness :
  ∃ key, key ∈ ["whisperModelSize"; "precision"]
         ∧ delete "precision" scenario_request !! key = None
         ∧ result (TranscribeAndClipRequestValidator.check_valid_request_data
                     check_existence_and_types_lenient device_check whisperx_check
                     texttile_check type_name_str)
                  (delete "precision" scenario_request)
           = Raises (KeyError key).
Proof.
  apply (proj2 (request_validator_raises_only_on_absent_nullable_field
                  check_existence_and_types_lenient device_check whisperx_check
                  texttile_check type_name_str
                  check_existence_and_types_lenient_sound _));
    [by vm_compute..|right; by vm_compute].
Defined.

(** *** What the answer depends on *)

Lemma first_error_swap before step step' after d :
  Forall read_only before → step d = step' d →
  first_error (before ++ step :: after)%list d
  = first_error (before ++ step' :: after)%list d.
Proof.
  intros Hbefore Hsame. induction Hbefore as [|first before Hro _ IH].
  - cbn [app first_error]. unfold bind. by rewrite Hsame.
  - cbn [app first_error]. unfold bind.
    specialize (Hro d). unfold final in Hro.
    destruct (first d) as [[[e|]|x] d']; cbn [snd] in Hro; subst; done.
Qed.

Lemma device_step_none check_valid_torch_device d :
  d !! "computeDevice" = Some VNone →
  device_step check_valid_torch_device d = (Returns None, d).
Proof. intros Hd. unfold device_step. by rewrite (bind_getitem_Some _ _ _ _ Hd). Qed.

(** A compute device that is None is never shown to the device check: on
    such a mapping the outcome of either validator is the same whatever the
    device check would answer. *)
Theorem none_device_skips_device_check
    (existence_and_types : dict → type_spec → option string)
    (device_check1 device_check2 : value → option string)
    (whisperx texttile : dict → option string) (object_str : value → string)
    (d : dict) :
  d !! "computeDevice" = Some VNone →
  ClipInputValidator.check_valid_input_data existence_and_types device_check1 texttile d
  = ClipInputValidator.check_valid_input_data existence_and_types device_check2 texttile d
  ∧ TranscribeAndClipRequestValidator.check_valid_request_data
      existence_and_types device_check1 whisperx texttile object_str d
    = TranscribeAndClipRequestValidator.check_valid_request_data
        existence_and_types device_check2 whisperx texttile object_str d.
Proof.
  intros Hnone.
  assert (device_step device_check1 d = device_step device_check2 d) as Hsame
    by (by rewrite !device_step_none).
  rewrite !check_valid_input_data_steps, !check_valid_request_data_steps.
  unfold input_steps, request_steps. split.
  - apply (first_error_swap [_; _] _ _ [_]); [|done].
    repeat constructor;
      auto using read_only_existence_step, read_only_extension_step.
  - apply (first_error_swap [_; _] _ _ [_; _]); [|done].
    repeat constructor;
      auto using read_only_existence_step, read_only_extension_step.
Qed.

(** On the first scenario, whose compute device is None, a device check
    that rejects everything changes nothing: the mapping is valid. *)
Lemma none_device_skips_device_check_witness :
  result (ClipInputValidator.check_valid_input_data
            check_existence_and_types (λ _, Some "no device is accepted")
            texttile_check) scenario_input
  = Returns None.
Proof.
  unfold result.
  rewrite (proj1 (none_device_skips_device_check
                    check_existence_and_types (λ _, Some "no device is accepted")
                    device_check whisperx_check texttile_check type_name_str
                    scenario_input ltac:(by vm_compute))).
  by vm_compute.
Defined.

Lemma first_error_agree steps d1 d2 :
  Forall read_only steps →
  Forall (λ step, result step d1 = result step d2) steps →
  result (first_error steps) d1 = result (first_error steps) d2.
Proof.
  induction 1 as [|step later Hro _ IH]; intros Hall; [done|].
  apply Forall_cons in Hall as [Hstep Hlater]. specialize (IH Hlater).
  pose proof (Hro d1) as Hro1. pose proof (Hro d2) as Hro2.
  unfold result, final in *. cbn [first_error]. unfold bind, ret.
  destruct (step d1) as [[[e1|]|x1] d1'], (step d2) as [[[e2|]|x2] d2'];
    cbn [fst snd] in *; subst; congruence.
Qed.

Lemma extension_step_agree d1 d2 :
  d1 !! "mediaFilePath" = d2 !! "mediaFilePath" →
  result extension_step d1 = result extension_step d2.
Proof.
  intros H. unfold result, extension_step.
  destruct (d2 !! "mediaFilePath") as [v|] eqn:H2.
  - by rewrite (bind_getitem_Some _ _ _ _ H), (bind_getitem_Some _ _ _ _ H2); destruct v.
  - by rewrite (bind_getitem_None _ _ _ H), (bind_getitem_None _ _ _ H2).
Qed.

Lemma device_step_agree check_valid_torch_device d1 d2 :
  d1 !! "computeDevice" = d2 !! "computeDevice" →
  result (device_step check_valid_torch_device) d1
  = result (device_step check_valid_torch_device) d2.
Proof.
  intros H. unfold result, device_step.
  destruct (d2 !! "computeDevice") as [v|] eqn:H2.
  - by rewrite (bind_getitem_Some _ _ _ _ H), (bind_getitem_Some _ _ _ _ H2); destruct v.
  - by rewrite (bind_getitem_None _ _ _ H), (bind_getitem_None _ _ _ H2).
Qed.

Lemma input_texttile_config_agree (d1 d2 : dict) :
  (∀ field, field ∈ map snd texttile_fields → d1 !! field = d2 !! field) →
  result ClipInputValidator.texttile_config d1
  = result ClipInputValidator.texttile_config d2.
Proof.
  rewrite texttile_outer_fields. intros H.
  unfold result, ClipInputValidator.texttile_config.
  agree_on H "cutoffPolicy".
  agree_on H "embeddingAggregationPoolMethod".
  agree_on H "maxClipTime".
  agree_on H "minClipTime".
  agree_on H "smoothingWidth".
  agree_on H "windowComparePoolMethod".
  done.
Qed.

Lemma whisperx_config_agree (d1 d2 : dict) :
  (∀ field, field ∈ ["languageCode"; "whisperModelSize"; "precision"] →
            d1 !! field = d2 !! field) →
  result TranscribeAndClipRequestValidator.whisperx_config d1
  = result TranscribeAndClipRequestValidator.whisperx_config d2.
Proof.
  intros H. unfold result, TranscribeAndClipRequestValidator.whisperx_config.
  agree_on H "languageCode".
  agree_on H "whisperModelSize".
  agree_on H "precision".
  done.
Qed.

Lemma request_fields_include_input_fields item :
  item ∈ ClipInputValidator.correct_types →
  item ∈ TranscribeAndClipRequestValidator.correct_types.
Proof.
  unfold ClipInputValidator.correct_types. intros Hin.
  repeat (apply elem_of_cons in Hin as [->|Hin];
          [unfold TranscribeAndClipRequestValidator.correct_types; item_listed|]).
  by apply elem_of_nil in Hin.
Qed.

(** The validators look at no key outside their type specification: when
    the existence-and-type check reads only the fields it is given, two
    mappings that agree on the fields of the type specification get the same
    answer, whatever else they hold. *)
Theorem validators_ignore_unlisted_keys
    (existence_and_types : dict → type_spec → option string)
    (check_valid_torch_device : value → option string)
    (whisperx texttile : dict → option string) (object_str : value → string)
    (Hlocal : reads_only_listed_fields existence_and_types) (d1 d2 : dict) :
  ((∀ field, field ∈ keys ClipInputValidator.correct_types →
             d1 !! field = d2 !! field) →
   result (ClipInputValidator.check_valid_input_data
             existence_and_types check_valid_torch_device texttile) d1
   = result (ClipInputValidator.check_valid_input_data
               existence_and_types check_valid_torch_device texttile) d2)
  ∧ ((∀ field, field ∈ keys TranscribeAndClipRequestValidator.correct_types →
               d1 !! field = d2 !! field) →
     result (TranscribeAndClipRequestValidator.check_valid_request_data
               existence_and_types check_valid_torch_device whisperx texttile
               object_str) d1
     = result (TranscribeAndClipRequestValidator.check_valid_request_data
                 existence_and_types check_valid_torch_device whisperx texttile
                 object_str) d2).
Proof.
  split; intros Hagree.
  - unfold result at 1 2. rewrite !check_valid_input_data_steps.
    apply first_error_agree; [apply read_only_input_steps|].
    unfold input_steps. repeat apply List.Forall_cons; [| | | |apply List.Forall_nil].
    + unfold result, existence_step, call. cbn [fst]. f_equal. by apply Hlocal.
    + apply extension_step_agree, Hagree. key_listed.
    + apply device_step_agree, Hagree. key_listed.
    + apply config_step_agree; [|done]. apply input_texttile_config_agree.
      rewrite texttile_outer_fields. intros field Hfield. apply Hagree.
      repeat (apply elem_of_cons in Hfield as [->|Hfield]; [key_listed|]).
      by apply elem_of_nil in Hfield.
  - unfold result at 1 2. rewrite !check_valid_request_data_steps.
    apply first_error_agree; [apply read_only_request_steps|].
    unfold request_steps. repeat apply List.Forall_cons; [| | | | |apply List.Forall_nil].
    + unfold result, existence_step, call. cbn [fst]. f_equal. by apply Hlocal.
    + apply extension_step_agree, Hagree. key_listed.
    + apply device_step_agree, Hagree. key_listed.
    + apply config_step_agree; [|done]. apply whisperx_config_agree.
      intros field Hfield. apply Hagree.
      repeat (apply elem_of_cons in Hfield as [->|Hfield]; [key_listed|]).
      by apply elem_of_nil in Hfield.
    + apply config_step_agree; [|done].
      rewrite (texttile_config_agree d1 d1) by done.
      rewrite (texttile_config_agree d2 d2) by done.
      apply input_texttile_config_agree.
      rewrite texttile_outer_fields. intros field Hfield. apply Hagree.
      repeat (apply elem_of_cons in Hfield as [->|Hfield]; [key_listed|]).
      by apply elem_of_nil in Hfield.
Qed.

Lemma check_existence_and_types_local :
  reads_only_listed_fields check_existence_and_types.
Proof.
  unfold check_existence_and_types.
  intros d1 d2 spec. induction spec as [|[k ts] rest IH]; intros Hagree; [done|].
  cbn [check_existence_and_types_before].
  rewrite (Hagree k) by (unfold keys; cbn [map fst]; by left).
  rewrite IH; [done|]. intros field Hfield. apply Hagree.
  unfold keys in *. cbn [map fst]. by right.
Qed.

(** The first scenario with a key the validator does not know is as valid
    as without it. *)
Lemma validators_ignore_unlisted_keys_witness :
  result (ClipInputValidator.check_valid_input_data
            check_existence_and_types device_check texttile_check)
         (<["verbose" := VBool true]> scenario_input)
  = Returns None.
Proof.
  rewrite (proj1 (validators_ignore_unlisted_keys
                    check_existence_and_types device_check whisperx_check
                    texttile_check type_name_str check_existence_and_types_local
                    (<["verbose" := VBool true]> scenario_input) scenario_input)).
  - by vm_compute.
  - intros field Hfield. apply lookup_insert_ne. intros <-. revert Hfield.
    key_not_listed.
Defined.

(** *** Requests and inputs *)

Lemma first_error_none steps d :
  Forall read_only steps →
  result (first_error steps) d = Returns None →
  Forall (λ step, passes step d) steps.
Proof.
  intros Hro Hnone. pose proof (first_error_first_failure steps d Hro) as H.
  by rewrite Hnone in H.
Qed.

(** A mapping that is a valid request is a valid input: when the
    existence-and-type check is monotone in the type specification and the
    two validators share their device check and text-tiling manager, None
    from the request validator implies None from the input validator. *)
Theorem valid_request_is_valid_input
    (existence_and_types : dict → type_spec → option string)
    (check_valid_torch_device : value → option string)
    (whisperx texttile : dict → option string) (object_str : value → string)
    (Hmonotone : monotone_existence_check existence_and_types) (d : dict) :
  result (TranscribeAndClipRequestValidator.check_valid_request_data
            existence_and_types check_valid_torch_device whisperx texttile
            object_str) d = Returns None →
  result (ClipInputValidator.check_valid_input_data
            existence_and_types check_valid_torch_device texttile) d = Returns None.
Proof.
  unfold result at 1. rewrite check_valid_request_data_steps. intros Hvalid.
  apply first_error_none in Hvalid; [|apply read_only_request_steps].
  unfold request_steps in Hvalid.
  apply Forall_cons in Hvalid as [Hexistence Hvalid].
  apply Forall_cons in Hvalid as [Hextension Hvalid].
  apply Forall_cons in Hvalid as [Hdevice Hvalid].
  apply Forall_cons in Hvalid as [_ Hvalid].
  apply Forall_cons in Hvalid as [Hclip _].
  rewrite input_after_device; [|
    apply passes_existence_step,
      (Hmonotone d _ _ request_fields_include_input_fields),
      passes_existence_step, Hexistence | done..].
  unfold passes in Hclip. rewrite <- Hclip. symmetry.
  apply config_step_agree; [by apply texttile_config_agree | done].
Qed.

Lemma check_existence_and_types_complete d correct_types :
  satisfies correct_types d →
  check_existence_and_types d correct_types = None.
Proof.
  unfold check_existence_and_types.
  induction correct_types as [|[k ts] rest IH]; intros Hall; [done|].
  cbn [check_existence_and_types_before].
  destruct (Hall k ts ltac:(by left)) as (v & -> & ->).
  apply IH. intros field types Hin. apply Hall. by right.
Qed.

Lemma check_existence_and_types_monotone :
  monotone_existence_check check_existence_and_types.
Proof.
  intros d smaller larger Hsub Hnone. apply check_existence_and_types_complete.
  intros field types Hin.
  by apply (check_existence_and_types_present d larger Hnone), Hsub.
Qed.

(** The request scenario is valid, hence it is a valid input as it stands,
    transcription fields included. *)
Lemma valid_request_is_valid_input_witness :
  result (ClipInputValidator.check_valid_input_data
            check_existence_and_types device_check texttile_check) scenario_request
  = Returns None.
Proof.
  apply (valid_request_is_valid_input
           check_existence_and_types device_check whisperx_check texttile_check
           type_name_str check_existence_and_types_monotone).
  by vm_compute.
Defined.

(** *** A field that is not acceptable *)

(** A field of the type specification that is missing without None being
    accepted for it, or bound to a value of another type, makes a sound
    existence-and-type check fail, and the validator returns that message:
    no later step runs and nothing is raised.  The empty mapping is such a
    mapping. *)
Theorem unacceptable_field_is_reported
    (existence_and_types : dict → type_spec → option string)
    (check_valid_torch_device : value → option string)
    (whisperx texttile : dict → option string) (object_str : value → string)
    (Hsound : sound_existence_check existence_and_types)
    (d : dict) (field : string) (types : list pytype) :
  ¬ accepted types (d !! field) →
  ((field, types) ∈ ClipInputValidator.correct_types →
   ∃ e, existence_and_types d ClipInputValidator.correct_types = Some e
        ∧ result (ClipInputValidator.check_valid_input_data
                    existence_and_types check_valid_torch_device texttile) d
          = Returns (Some e))
  ∧ ((field, types) ∈ TranscribeAndClipRequestValidator.correct_types →
     ∃ e, existence_and_types d TranscribeAndClipRequestValidator.correct_types = Some e
          ∧ result (TranscribeAndClipRequestValidator.check_valid_request_data
                      existence_and_types check_valid_torch_device whisperx texttile
                      object_str) d
            = Returns (Some e)).
Proof.
  intros Hbad. split; intros Hin.
  - destruct (existence_and_types d ClipInputValidator.correct_types) as [e|] eqn:Hex;
      [|destruct Hbad; by apply (Hsound d _ Hex)].
    exists e. split; [done|]. unfold result at 1. rewrite check_valid_input_data_steps.
    apply first_error_stop; [|done].
    unfold result, existence_step, call. cbn [fst]. by rewrite Hex.
  - destruct (existence_and_types d TranscribeAndClipRequestValidator.correct_types)
      as [e|] eqn:Hex; [|destruct Hbad; by apply (Hsound d _ Hex)].
    exists e. split; [done|]. unfold result at 1. rewrite check_valid_request_data_steps.
    apply first_error_stop; [|done].
    unfold result, existence_step, call. cbn [fst]. by rewrite Hex.
Qed.

(** The empty mapping and a mapping whose smoothing width is a float are
    both answered by the existence-and-type check. *)
Lemma unacceptable_field_is_reported_witness :
  (∃ e, check_existence_and_types ∅ ClipInputValidator.correct_types = Some e
        ∧ result (ClipInputValidator.check_valid_input_data
                    check_existence_and_types device_check texttile_check) ∅
          = Returns (Some e))
  ∧ (∃ e, check_existence_and_types
            (<["smoothingWidth" := VFloat (S754_finite false 3 0)]> scenario_request)
            TranscribeAndClipRequestValidator.correct_types = Some e
          ∧ result (TranscribeAndClipRequestValidator.check_valid_request_data
                      check_existence_and_types device_check whisperx_check
                      texttile_check type_name_str)
                   (<["smoothingWidth" := VFloat (S754_finite false 3 0)]>
                      scenario_request)
            = Returns (Some e)).
Proof.
  split.
  - destruct (unacceptable_field_is_reported
                check_existence_and_types device_check whisperx_check
                texttile_check type_name_str check_existence_and_types_sound
                ∅ "mediaFilePath" [Str]) as [Hinput _].
    + vm_compute. discriminate.
    + apply Hinput. unfold ClipInputValidator.correct_types. item_listed.
  - destruct (unacceptable_field_is_reported
                check_existence_and_types device_check whisperx_check
                texttile_check type_name_str check_existence_and_types_sound
                (<["smoothingWidth" := VFloat (S754_finite false 3 0)]>
                   scenario_request)
                "smoothingWidth" [Int]) as [_ Hrequest].
    + vm_compute. discriminate.
    + apply Hrequest.
      unfold TranscribeAndClipRequestValidator.correct_types. item_listed.
Defined.

(** *** The extension of the media path *)

Lemma substring_skip_add (p s : string) n m :
  substring (String.length p + n) m (p ++ s) = substring n m s.
Proof. induction p as [|c p IH]; simpl; [done | apply IH]. Qed.

Lemma endswith_append (directory name suffix : string) :
  (String.length suffix ≤ String.length name)%nat →
  endswith (directory ++ name) suffix = endswith name suffix.
Proof.
  intros Hlen. unfold endswith. rewrite length_append.
  replace (String.length directory + String.length name - String.length suffix)%nat
    with (String.length directory + (String.length name - String.length suffix))%nat
    by lia.
  rewrite substring_skip_add.
  destruct (Nat.leb_spec (String.length suffix) (String.length name)); [|lia].
  destruct (Nat.leb_spec (String.length suffix)
              (String.length directory + String.length name)); [done | lia].
Qed.

Lemma endswith_short_string (name suffix : string) :
  (String.length name < String.length suffix)%nat → endswith name suffix = false.
Proof.
  intros Hlen. unfold endswith.
  destruct (Nat.leb_spec (String.length suffix) (String.length name)); [lia | done].
Qed.

Lemma characters_append (p s : string) :
  characters (p ++ s) = (characters p + characters s)%nat.
Proof.
  induction p as [|c p IH]; simpl; [done|].
  destruct (is_continuation_byte c); by rewrite IH.
Qed.

Lemma characters_le_length (s : string) : (characters s ≤ String.length s)%nat.
Proof.
  induction s as [|c s IH]; simpl; [done|].
  destruct (is_continuation_byte c); lia.
Qed.

Lemma short_path_has_no_media_extension (path : string) :
  (characters path < 4)%nat → endswith_any path [".mp3"; ".mp4"] = false.
Proof.
  intros Hshort. apply not_true_is_false. intros Hext.
  apply has_media_extension_endswith in Hext as [stem [-> | ->]];
    rewrite characters_append in Hshort;
    [change (characters ".mp3") with 4 in Hshort
    |change (characters ".mp4") with 4 in Hshort]; lia.
Qed.

Lemma media_extension_of_name (directory name : string) :
  (4 ≤ characters name)%nat →
  endswith_any (directory ++ name) [".mp3"; ".mp4"]
  = endswith_any name [".mp3"; ".mp4"].
Proof.
  intros Hlong. pose proof (characters_le_length name).
  unfold endswith_any. cbn [existsb].
  rewrite !endswith_append; [done|cbn; lia..].
Qed.

(** What a validator answers on a mapping that passed the existence-and-type
    check and whose media path is the string [path]. *)
Lemma input_extension_cases existence_and_types check_valid_torch_device texttile
    d path :
  existence_and_types d ClipInputValidator.correct_types = None →
  d !! "mediaFilePath" = Some (VStr path) →
  result (ClipInputValidator.check_valid_input_data
            existence_and_types check_valid_torch_device texttile) d
  = if endswith_any path [".mp3"; ".mp4"]
    then result (first_error
           [ device_step check_valid_torch_device;
             config_step ClipInputValidator.texttile_config texttile ]) d
    else Returns (Some ("mediaFilePath must be of type mp3 or mp4. Received: "
                        ++ path)).
Proof.
  intros Hnone Hpath. pose proof (extension_step_run d path Hpath) as Hext.
  destruct (endswith_any path [".mp3"; ".mp4"]).
  - apply input_after_extension; [by apply passes_existence_step | done].
  - unfold result at 1. rewrite check_valid_input_data_steps. unfold input_steps.
    rewrite first_error_pass;
      [|apply read_only_existence_step | by apply passes_existence_step].
    by apply first_error_stop.
Qed.

Lemma request_extension_cases existence_and_types check_valid_torch_device
    whisperx texttile object_str d path :
  existence_and_types d TranscribeAndClipRequestValidator.correct_types = None →
  d !! "mediaFilePath" = Some (VStr path) →
  result (TranscribeAndClipRequestValidator.check_valid_request_data
            existence_and_types check_valid_torch_device whisperx texttile
            object_str) d
  = if endswith_any path [".mp3"; ".mp4"]
    then result (first_error
           [ device_step check_valid_torch_device;
             config_step TranscribeAndClipRequestValidator.whisperx_config whisperx;
             config_step TranscribeAndClipRequestValidator.texttile_config texttile ])
           d
    else Returns (Some ("mediaFilePath must be of type mp3 or mp4. Received: "
                        ++ path)).
Proof.
  intros Hnone Hpath. pose proof (extension_step_run d path Hpath) as Hext.
  destruct (endswith_any path [".mp3"; ".mp4"]).
  - apply request_after_extension; [by apply passes_existence_step | done].
  - unfold result at 1. rewrite check_valid_request_data_steps. unfold request_steps.
    rewrite first_error_pass;
      [|apply read_only_existence_step | by apply passes_existence_step].
    by apply first_error_stop.
Qed.

(** The extension check of both validators is decided by the last four
    characters of the media path.  On a mapping that passed the
    existence-and-type check and whose media path is [directory] followed
    by [name]: a path of fewer than four characters is answered with the
    extension message; and when [name] has four characters or more, what is
    put before it (a directory, a drive) plays no part: without .mp3 or
    .mp4 at the end of [name] the answer is the extension message, and with
    it the validator goes on to its remaining steps.  Characters are
    counted as Python counts them, not as bytes. *)
Theorem media_extension_is_decided_by_last_four_characters
    (existence_and_types : dict → type_spec → option string)
    (check_valid_torch_device : value → option string)
    (whisperx texttile : dict → option string) (object_str : value → string)
    (d : dict) (directory name : string) :
  let input := ClipInputValidator.check_valid_input_data
                 existence_and_types check_valid_torch_device texttile in
  let request := TranscribeAndClipRequestValidator.check_valid_request_data
                   existence_and_types check_valid_torch_device whisperx texttile
                   object_str in
  let rejected :=
    Returns (Some ("mediaFilePath must be of type mp3 or mp4. Received: "
                   ++ (directory ++ name))) in
  d !! "mediaFilePath" = Some (VStr (directory ++ name)) →
  (existence_and_types d ClipInputValidator.correct_types = None →
   ((characters (directory ++ name) < 4)%nat → result input d = rejected)
   ∧ ((4 ≤ characters name)%nat → ¬ has_media_extension name →
      result input d = rejected)
   ∧ ((4 ≤ characters name)%nat → has_media_extension name →
      result input d
      = result (first_error
          [ device_step check_valid_torch_device;
            config_step ClipInputValidator.texttile_config texttile ]) d))
  ∧ (existence_and_types d TranscribeAndClipRequestValidator.correct_types = None →
   ((characters (directory ++ name) < 4)%nat → result request d = rejected)
   ∧ ((4 ≤ characters name)%nat → ¬ has_media_extension name →
      result request d = rejected)
   ∧ ((4 ≤ characters name)%nat → has_media_extension name →
      result request d
      = result (first_error
          [ device_step check_valid_torch_device;
            config_step TranscribeAndClipRequestValidator.whisperx_config whisperx;
            config_step TranscribeAndClipRequestValidator.texttile_config texttile ])
          d)).
Proof.
  intros input request rejected Hpath. subst input request rejected.
  split; intros Hnone.
  - rewrite (input_extension_cases _ _ _ _ _ Hnone Hpath).
    split; [|split].
    + intros Hshort. by rewrite short_path_has_no_media_extension.
    + intros Hlong Hext. rewrite media_extension_of_name by done.
      rewrite has_media_extension_endswith in Hext.
      by apply not_true_is_false in Hext as ->.
    + intros Hlong Hext. rewrite media_extension_of_name by done.
      by apply has_media_extension_endswith in Hext as ->.
  - rewrite (request_extension_cases _ _ _ _ _ _ _ Hnone Hpath).
    split; [|split].
    + intros Hshort. by rewrite short_path_has_no_media_extension.
    + intros Hlong Hext. rewrite media_extension_of_name by done.
      rewrite has_media_extension_endswith in Hext.
      by apply not_true_is_false in Hext as ->.
    + intros Hlong Hext. rewrite media_extension_of_name by done.
      by apply has_media_extension_endswith in Hext as ->.
Qed.

(** A path of two accented characters (four bytes) is rejected as too short
    to carry an extension, and a.mp4 in a directory is accepted as a.mp4
    is. *)
Lemma media_extension_is_decided_by_last_four_characters_witness :
  result (ClipInputValidator.check_valid_input_data
            check_existence_and_types device_check texttile_check)
         (<["mediaFilePath" := VStr "éé"]> scenario_input)
  = Returns (Some "mediaFilePath must be of type mp3 or mp4. Received: éé")
  ∧ result (TranscribeAndClipRequestValidator.check_valid_request_data
              check_existence_and_types device_check whisperx_check texttile_check
              type_name_str)
           (<["mediaFilePath" := VStr "/srv/media/a.mp4"]> scenario_request)
    = Returns None.
Proof.
  split.
  - destruct (media_extension_is_decided_by_last_four_characters
                check_existence_and_types device_check whisperx_check texttile_check
                type_name_str (<["mediaFilePath" := VStr "éé"]> scenario_input)
                "" "éé") as [Hinput _]; [by vm_compute|].
    destruct Hinput as [Hshort _]; [by vm_compute|].
    apply Hshort. vm_compute. lia.
  - destruct (media_extension_is_decided_by_last_four_characters
                check_existence_and_types device_check whisperx_check texttile_check
                type_name_str
                (<["mediaFilePath" := VStr "/srv/media/a.mp4"]> scenario_request)
                "/srv/media/" "a.mp4") as [_ Hrequest]; [by vm_compute|].
    destruct Hrequest as (_ & _ & Hgoes_on); [by vm_compute|].
    rewrite Hgoes_on; [by vm_compute | vm_compute; lia |].
    apply has_media_extension_endswith. by vm_compute.
Defined.
